(** * ArticleData: the septic-arthritis analysis script (CódigoAnalise.py)

    A shallow embedding of the parts of the script that carry logic of
    their own: the cleaning filter (section 2), the proxy-based 30-day
    readmission detection (section 4), the keyword categorisation of
    procedures (section 5), and the control and file effects of the
    whole run (sections 1 to 10). *)

From Stdlib Require Import Reals.
From Stdlib Require Import Lqa.
From Stdlib Require Import ZArith QArith Lia Bool List Ascii String Permutation Sorted OrderedTypeEx.
From stdpp Require Import base option list gmap strings sorting pretty.

Open Scope string_scope.
Open Scope list_scope.
Open Scope Z_scope.

(** ** Python strings

    A Python [str] is modelled by a Rocq [string] holding its UTF-8
    bytes.  Every keyword of the script is ASCII, and a byte-wise
    substring test on UTF-8 text agrees with Python's test on code
    points. *)

Module Str.

(** [kw in s] *)
Fixpoint contains (kw s : string) : bool :=
  String.prefix kw s ||
  match s with
  | EmptyString => false
  | String _ t => contains kw t
  end.

(** [any(kw in s for kw in kws)] *)
Definition any_in (kws : list string) (s : string) : bool :=
  existsb (fun kw => contains kw s) kws.

(** The mathematical reading of [kw in s]. *)
Definition occurs (kw s : string) : Prop :=
  exists a b : string, s = String.append a (String.append kw b).

End Str.

(** ** Section 5 of the script: categorisation of procedures *)

Module Categorize.

(** What [Series.apply] hands to the function: a cell of the column
    [proc_nome], either missing (NaN, None: [pd.notna] is false) or a
    scalar, given by the text [str()] returns for it. *)
Inductive cell : Type :=
  | Missing
  | Scalar (text : string).

Definition major_kws : list string :=
  ["artroplastia"; "artrodese"; "osteossintese"; "reconstrucao"; "ressec/tumor"].
Definition specific_kws : list string := ["artrotom"; "sinovectomia"].
Definition minor_kws : list string :=
  ["artroscopia"; "desbridamento"; "exerese"; "tenorrafia"; "capsulorrafia"].
Definition other_kws : list string :=
  ["drenagem"; "biopsia"; "puncao"; "retirad"; "reparacao"; "corpo estranho"].
Definition conservative_kws : list string :=
  ["conservador"; "clinico"; "sem procedimento"; "na"].

Definition categories : list string :=
  ["Cirurgia Grande"; "Procedimentos Específicos"; "Cirurgia Média/Pequena";
   "Outros procedimentos"; "Conservador"].

(** [str.lower] on ASCII text; the instance used to run the function. *)
Definition lower_ascii (c : ascii) : ascii :=
  let n := N_of_ascii c in
  if ((65 <=? n) && (n <=? 90))%N then ascii_of_N (n + 32) else c.

Fixpoint ascii_lower (s : string) : string :=
  match s with
  | EmptyString => EmptyString
  | String c t => String (lower_ascii c) (ascii_lower t)
  end.

Section WithLower.

(** Python's [str.lower], with its Unicode case tables. *)
Variable lower : string -> string.

(** [str(proc_nome).lower() if pd.notna(proc_nome) else 'na'] *)
Definition lowered (proc_nome : cell) : string :=
  match proc_nome with
  | Scalar text => lower text
  | Missing => "na"
  end.

Definition categorize_procedure_v2 (proc_nome : cell) : string :=
  let proc_nome := lowered proc_nome in
  if Str.any_in major_kws proc_nome then
    "Cirurgia Grande"
  else if Str.any_in specific_kws proc_nome
          && negb (Str.contains "corpo estranho" proc_nome) then
    "Procedimentos Específicos"
  else if Str.any_in minor_kws proc_nome then
    "Cirurgia Média/Pequena"
  else if Str.any_in other_kws proc_nome then
    "Outros procedimentos"
  else if Str.any_in conservative_kws proc_nome then
    "Conservador"
  else
    "Outros procedimentos".

(** [lower] leaves a keyword where it stands, as [str.lower] does with
    a keyword of lowercase ASCII letters and spaces. *)
Definition keeps (kw : string) : Prop :=
  forall s, Str.occurs kw s -> Str.occurs kw (lower s).

End WithLower.

End Categorize.

(** ** Section 2 of the script: the cleaning filter *)

Module Clean.

(** A cell of a column that [pd.to_numeric(errors='coerce')] has turned
    into float64.  Only comparisons with constants are made on it, so a
    finite value is given by the rational it denotes. *)
Inductive float : Type :=
  | nan
  | neg_inf
  | fin (q : Q)
  | pos_inf.

(** A row of the frame as it stands before line 146: the index label
    given by [read_csv], the numeric and date columns after conversion
    ([None] is NaT, a date is the datetime64 count of nanoseconds), the
    derived column [cep_str], and the two columns kept as read. *)
Record row : Type := mk_row {
  label : nat;
  idade : float;
  dias_perm : float;
  sexo : float;
  morte : float;
  nasc : option Z;
  dt_inter : option Z;
  dt_saida : option Z;
  cep_str : option string;
  munic_res : Categorize.cell;
  proc_nome : Categorize.cell
}.

Definition float_notna (x : float) : bool :=
  match x with nan => false | _ => true end.

Definition cell_notna (c : Categorize.cell) : bool :=
  match c with Categorize.Missing => false | Categorize.Scalar _ => true end.

Definition opt_notna {A : Type} (o : option A) : bool :=
  match o with None => false | Some _ => true end.

(** [x >= k] on float64: false on NaN. *)
Definition float_ge (x : float) (k : Q) : bool :=
  match x with
  | nan => false
  | neg_inf => false
  | fin q => Qle_bool k q
  | pos_inf => true
  end.

(** [a >= b] on datetime64: false when either side is NaT. *)
Definition date_ge (a b : option Z) : bool :=
  match a, b with
  | Some x, Some y => y <=? x
  | _, _ => false
  end.

(** The rows [dropna(subset=cols_to_check_na)] keeps. *)
Definition essential_notna (r : row) : bool :=
  float_notna (idade r) && float_notna (dias_perm r) && float_notna (sexo r)
  && float_notna (morte r) && opt_notna (nasc r) && opt_notna (dt_inter r)
  && opt_notna (dt_saida r) && opt_notna (cep_str r)
  && cell_notna (munic_res r) && cell_notna (proc_nome r).

(** [(df['idade'] >= 18) & (df['dias_perm'] >= 1)] *)
Definition adult_stay (r : row) : bool :=
  float_ge (idade r) 18 && float_ge (dias_perm r) 1.

(** [df['dt_saida'] >= df['dt_inter']] *)
Definition dates_consistent (r : row) : bool :=
  date_ge (dt_saida r) (dt_inter r).

(** Lines 146 to 149. *)
Definition clean (df : list row) : list row :=
  let df := List.filter essential_notna df in
  let df := List.filter adult_stay df in
  List.filter dates_consistent df.

(** *** The filter, stated on the rows *)

(** [x >= k] holds of a float64 read from the file. *)
Definition at_least (x : float) (k : Q) : Prop :=
  x = pos_inf \/ exists q, x = fin q /\ (k <= q)%Q.

Definition essential_present (r : row) : Prop :=
  idade r <> nan /\ dias_perm r <> nan /\ sexo r <> nan /\ morte r <> nan
  /\ nasc r <> None /\ dt_inter r <> None /\ dt_saida r <> None
  /\ cep_str r <> None
  /\ munic_res r <> Categorize.Missing /\ proc_nome r <> Categorize.Missing.

Definition survives (r : row) : Prop :=
  essential_present r
  /\ at_least (idade r) 18
  /\ at_least (dias_perm r) 1
  /\ exists i o, dt_inter r = Some i /\ dt_saida r = Some o /\ i <= o.

End Clean.

(** ** Section 4 of the script: readmission within 30 days *)

Module Readmit.

(** An admission of the cleaned frame, with the columns section 4 reads.
    [munic_res] and [sexo] are the texts [astype(str)] gives, [nasc_str]
    the text of [strftime('%Y-%m-%d')]; the two dates are datetime64
    counts of nanoseconds. *)
Record adm : Type := mk_adm {
  label : nat;
  munic_res : string;
  nasc_str : string;
  sexo : string;
  cep_str : string;
  dt_inter : Z;
  dt_saida : Z
}.

Definition ident_proxy (r : adm) : string :=
  munic_res r +:+ "|" +:+ nasc_str r +:+ "|" +:+ sexo r +:+ "|" +:+ cep_str r.

(** The order of [sort_values(by=['ident_proxy', 'dt_inter'])]. *)
Definition sort_le (a b : adm) : bool :=
  match String.compare (ident_proxy a) (ident_proxy b) with
  | Lt => true
  | Eq => dt_inter a <=? dt_inter b
  | Gt => false
  end.

(** The sort on several keys is stable: rows that agree on both keys
    keep the order they had in the frame. *)
Fixpoint insert_row (x : adm) (l : list adm) : list adm :=
  match l with
  | [] => [x]
  | y :: t => if sort_le x y then x :: l else y :: insert_row x t
  end.

Definition sort_values (df : list adm) : list adm :=
  fold_right insert_row [] df.

(** [df.groupby('ident_proxy')['dt_saida'].shift(1)]: one pass over the
    rows in frame order, remembering for each key the value of the last
    row seen. *)
Fixpoint group_shift (last : gmap string Z) (df : list adm) : list (option Z) :=
  match df with
  | [] => []
  | r :: t =>
      last !! ident_proxy r
      :: group_shift (<[ident_proxy r := dt_saida r]> last) t
  end.

Definition day_ns : Z := 86400 * 1000000000.

(** [(dt_inter - dt_saida_anterior).dt.days] where the previous exit is
    not NaT, NaN elsewhere. *)
Definition interval_days (r : adm) (prev : option Z) : option Z :=
  match prev with
  | Some d => Some ((dt_inter r - d) / day_ns)
  | None => None
  end.

(** [((intervalo_dias >= 0) & (intervalo_dias <= 30)).astype(int)] *)
Definition within_30d (i : option Z) : Z :=
  match i with
  | Some d => if (0 <=? d) && (d <=? 30) then 1 else 0
  | None => 0
  end.

(** A row of the frame after line 197. *)
Record flagged : Type := mk_flagged {
  rec : adm;
  dt_saida_anterior : option Z;
  intervalo_dias : option Z;
  readmitido_30d : Z
}.

Definition mark (r : adm) (prev : option Z) : flagged :=
  {| rec := r;
     dt_saida_anterior := prev;
     intervalo_dias := interval_days r prev;
     readmitido_30d := within_30d (interval_days r prev) |}.

(** Lines 185 to 197. *)
Definition identify_readmissions (df : list adm) : list flagged :=
  let df := sort_values df in
  let dt_saida_anterior := group_shift ∅ df in
  zip_with mark df dt_saida_anterior.

(** *** The notions the specification of this step speaks of *)

(** Admission-date order inside a key: by [dt_inter], rows admitted at
    the same instant in the order of the frame. *)
Definition admitted_before (p r : adm) : Prop :=
  dt_inter p < dt_inter r \/ (dt_inter p = dt_inter r /\ (label p < label r)%nat).

(** An earlier admission under the key the script has computed; the
    proofs go through this notion and the next. *)
Definition earlier_same_key (df : list adm) (p r : adm) : Prop :=
  In p df /\ ident_proxy p = ident_proxy r /\ admitted_before p r.

(** [p] is the admission of [r]'s key that comes just before [r]. *)
Definition immediately_precedes (df : list adm) (p r : adm) : Prop :=
  earlier_same_key df p r /\
  forall q, earlier_same_key df q r -> q = p \/ admitted_before q p.

(** The index labels of a frame read by [read_csv] and then filtered:
    strictly increasing. *)
Definition labels_increasing (df : list adm) : Prop :=
  StronglySorted lt (map label df).

(** The identity key of the specification: the texts of the
    municipality of residence, the date of birth, the sex and the CEP,
    in this order, joined by '|'. *)
Definition synthesized_key (r : adm) : string :=
  String.concat "|" [munic_res r; nasc_str r; sexo r; cep_str r].

Definition same_key (p r : adm) : Prop :=
  synthesized_key p = synthesized_key r.

(** Two admissions of one patient, as far as the file tells: the same
    municipality of residence, date of birth, sex and CEP. *)
Definition same_patient (p r : adm) : Prop :=
  munic_res p = munic_res r /\ nasc_str p = nasc_str r
  /\ sexo p = sexo r /\ cep_str p = cep_str r.

(** The texts of the municipality, of the date of birth and of the sex
    hold no '|', as a code of digits, a date and a number do. *)
Definition bar_free (r : adm) : Prop :=
  ~ Str.occurs "|" (munic_res r) /\ ~ Str.occurs "|" (nasc_str r)
  /\ ~ Str.occurs "|" (sexo r).

(** An admission of [df] that is the [same] as [r] and earlier. *)
Definition earlier (same : adm -> adm -> Prop) (df : list adm) (p r : adm) : Prop :=
  In p df /\ same p r /\ admitted_before p r.

(** [p] is, of the admissions of [df] that are the [same] as [r], the
    one that comes just before [r]. *)
Definition just_before (same : adm -> adm -> Prop) (df : list adm) (p r : adm)
  : Prop :=
  earlier same df p r /\
  forall q, earlier same df q r -> q = p \/ admitted_before q p.

(** [r] is a readmission within 30 days: an earlier admission of the
    [same] exists, and from the discharge of the one just before [r]
    to the admission of [r] there are between 0 and 30 whole days, of
    86 400 s of 10^9 ns each. *)
Definition readmitted (same : adm -> adm -> Prop) (df : list adm) (r : adm) : Prop :=
  (exists q, earlier same df q r)
  /\ exists p, just_before same df p r
            /\ 0 <= (dt_inter r - dt_saida p) / 86400000000000 <= 30.

(** *** Auxiliary notions for the proofs *)

(** The table [group_shift] holds after a pass over [pre]. *)
Definition remembered (last : gmap string Z) (pre : list adm) : gmap string Z :=
  fold_left (fun m r => <[ident_proxy r := dt_saida r]> m) pre last.

(** The last row of [pre] with key [k]. *)
Fixpoint last_same (k : string) (pre : list adm) : option adm :=
  match pre with
  | [] => None
  | p :: t =>
      match last_same k t with
      | Some q => Some q
      | None => if decide (ident_proxy p = k) then Some p else None
      end
  end.

(** The order of the sorted frame: by key, then by admission. *)
Definition frame_lt (a b : adm) : Prop :=
  String_as_OT.lt (ident_proxy a) (ident_proxy b)
  \/ (ident_proxy a = ident_proxy b /\ admitted_before a b).

End Readmit.

(** ** The run of the script: control, files and messages *)

Module Script.

Definition output_dir : string := "ResultadosAnalise_ArtigoRESS".
Definition input_csv : string := "SIH_ArtriteSeptica_BrasilUFporUF_filtered61225.csv".

(** [os.path.join] on a POSIX system. *)
Definition path_join (dir name : string) : string := dir +:+ "/" +:+ name.

Definition tabela1 : string := "Tabela1_Descritiva_Geral.csv".
Definition contagem : string := "Contagem_Procedimentos_Categoria.csv".
Definition figura1_png : string := "Figura1_Mortalidade_FaixaEtaria.png".
Definition figura1_tiff : string := "Figura1_Mortalidade_FaixaEtaria.tiff".
Definition figura2_png : string := "Figura2_Readmissao_Procedimento.png".
Definition figura2_tiff : string := "Figura2_Readmissao_Procedimento.tiff".
Definition tabela2 : string := "Tabela2_Regressao_Logistica_Readmissao.csv".
Definition figura3_png : string := "Figura3_Forest_Plot_Readmissao.png".
Definition figura3_tiff : string := "Figura3_Forest_Plot_Readmissao.tiff".

Definition output_names : list string :=
  [tabela1; contagem; figura1_png; figura1_tiff; figura2_png; figura2_tiff;
   tabela2; figura3_png; figura3_tiff].

(** An exception (an instance of [Exception], what the handlers of the
    script catch) raised inside a [try] block by the libraries: the
    statement of the block that raises, counted from 0, the text of the
    exception, and whether the effects of that statement had taken place
    when it raised.  A fault past the last statement never fires. *)
Record fault : Type := mk_fault {
  at_step : nat;
  message : string;
  effect_done : bool
}.

(** The statements of the block of section 4, lines 180 to 206. *)
Inductive readm_stmt : Type :=
  | MakeNascStr
  | MakeIdentProxy
  | SortValues
  | ShiftExit
  | IntervalDays
  | Flag
  | Report.

(** Whether [sort_values(inplace=True)] has run when the statement
    raises. *)
Definition sorted_when (s : readm_stmt) : bool :=
  match s with
  | MakeNascStr | MakeIdentProxy | SortValues => false
  | ShiftExit | IntervalDays | Flag | Report => true
  end.

(** The frame as loaded: the names of its columns after the renaming of
    line 104, which may give one name to two columns, and its rows as
    the conversions of lines 109 to 131 leave them when they return. *)
Record frame : Type := mk_frame {
  columns : list string;
  rows : list Clean.row
}.

Inductive read_result : Type :=
  | ReadFrame (fr : frame)
  | UnicodeDecodeError
  | FileNotFoundError
  | ReadError (msg : string).

Inductive retry_result : Type :=
  | RetryFrame (fr : frame)
  | RetryError (msg : string).

Definition numeric_cols : list string := ["idade"; "dias_perm"; "morte"; "sexo"].
Definition date_cols : list string := ["dt_inter"; "dt_saida"; "nasc"].
Definition cols_to_check_na : list string :=
  ["idade"; "dias_perm"; "sexo"; "morte"; "nasc"; "dt_inter"; "dt_saida";
   "cep_str"; "munic_res"; "proc_nome"].

Definition has_column (cols : list string) (c : string) : bool :=
  existsb (String.eqb c) cols.

(** [repr] of a list of column names. *)
Definition py_list_repr (l : list string) : string :=
  "[" +:+ String.concat ", " (map (fun c => "'" +:+ c +:+ "'") l) +:+ "]".

(** A frame of numbers, as a list of named columns. *)
Definition rename_columns {A : Type} (names : list string) (df : list (string * list A))
  : list (string * list A) :=
  zip_with (fun n c => (n, snd c)) names df.

Definition column {A : Type} (name : string) (df : list (string * list A))
  : option (list A) :=
  snd <$> List.find (fun c => String.eqb (fst c) name) df.

(** [strftime('%Y-%m-%d')] of a datetime64: the civil date of the day
    the instant falls in, years of four digits (the range of
    datetime64[ns] lies within the years 1677 to 2262). *)
Definition pad2 (n : Z) : string :=
  if n <? 10 then "0" +:+ pretty n else pretty n.

Definition pad4 (n : Z) : string :=
  if n <? 10 then "000" +:+ pretty n
  else if n <? 100 then "00" +:+ pretty n
  else if n <? 1000 then "0" +:+ pretty n
  else pretty n.

Definition civil_from_days (days : Z) : Z * Z * Z :=
  let z := days + 719468 in
  let era := z / 146097 in
  let doe := z - era * 146097 in
  let yoe := (doe - doe / 1460 + doe / 36524 - doe / 146096) / 365 in
  let doy := doe - (365 * yoe + yoe / 4 - yoe / 100) in
  let mp := (5 * doy + 2) / 153 in
  let d := doy - (153 * mp + 2) / 5 + 1 in
  let m := if mp <? 10 then mp + 3 else mp - 9 in
  let y := yoe + era * 400 + (if m <=? 2 then 1 else 0) in
  (y, m, d).

Definition strftime_ymd (t : Z) : string :=
  let '(y, m, d) := civil_from_days (t / Readmit.day_ns) in
  pad4 y +:+ "-" +:+ pad2 m +:+ "-" +:+ pad2 d.

(** [str] of a float64 that holds a whole number below 10^16, as the
    codes of [sexo] are: the instance used to run the script. *)
Definition str_whole (x : Clean.float) : string :=
  match x with
  | Clean.nan => "nan"
  | Clean.neg_inf => "-inf"
  | Clean.pos_inf => "inf"
  | Clean.fin q => pretty (Qnum q / Zpos (Qden q)) +:+ ".0"
  end.

Section Run.

(** The float64 numbers of the regression and [np.exp] on them. *)
Variable num : Type.
Variable np_exp : num -> num.
(** [astype(str)] on a float64 cell. *)
Variable str_float : Clean.float -> string.

(** What [smf.logit(...).fit(...)] returns: [params], the two columns
    of [conf_int()], and [pvalues]. *)
Record fit : Type := mk_fit {
  params : list num;
  conf_lower : list num;
  conf_upper : list num;
  pvalues : list num
}.

Inductive payload : Type :=
  | Table
  | Image
  | OddsRatios (t : list (string * list num)).

(** What a run does to the world outside: directories, files, the
    messages it prints, and the traceback Python prints when an
    exception reaches the top of the script, given by the class of the
    exception. *)
Inductive event : Type :=
  | MakeDirs (path : string)
  | ReadFile (path : string)
  | WriteFile (path : string) (what : payload)
  | Print (text : string)
  | Traceback (exception : string).

(** What the world outside the script decides in a run. *)
Record env : Type := mk_env {
  dir_exists : bool;
  first_read : read_result;
  second_read : retry_result;
  descriptive_fault : option fault;
  readmission_fault : option (readm_stmt * string);
  figures_fault : option fault;
  transform_fault : option string;
  regression_fault : option fault;
  fitted : fit;
  forest_fault : option fault
}.

(** A piece of the script: what it does, and its value unless the
    script stopped there, through [exit()] or through an exception that
    no handler catches. *)
Definition prog (A : Type) : Type := list event * option A.

Definition ret {A : Type} (a : A) : prog A := ([], Some a).
Definition emit (e : event) : prog unit := ([e], Some tt).
Definition emits (es : list event) : prog unit := (es, Some tt).
Definition exit {A : Type} : prog A := ([], None).
(** An exception outside every [try]: the traceback, and the script is
    over. *)
Definition crash {A : Type} (exception : string) : prog A :=
  ([Traceback exception], None).
Definition bind {A B : Type} (m : prog A) (k : A -> prog B) : prog B :=
  match m with
  | (t, Some a) => let (t', r) := k a in ((t ++ t'), r)
  | (t, None) => (t, None)
  end.

Notation "x <- m ;; k" := (bind m (fun x => k))
  (at level 100, m at next level, right associativity).
Notation "m ;;; k" := (bind m (fun _ => k))
  (at level 100, right associativity).

(** The statements of a [try] block, each given by its file effects,
    run until the fault, if it lies in the block: the effects that took
    place, and the text of the exception raised. *)
Fixpoint attempt (steps : list (list event)) (i : nat) (f : option fault)
  : list event * option string :=
  match steps with
  | [] => ([], None)
  | s :: rest =>
      match f with
      | Some ft =>
          if Nat.eqb (at_step ft) i then
            ((if effect_done ft then s else []), Some (message ft))
          else
            let (t, r) := attempt rest (S i) f in ((s ++ t), r)
      | None =>
          let (t, r) := attempt rest (S i) f in ((s ++ t), r)
      end
  end.

Definition out_file (name : string) (what : payload) : event :=
  WriteFile (path_join output_dir name) what.

(** Section 1, lines 64 to 67. *)
Definition setup (e : env) : prog unit :=
  if dir_exists e then ret tt else emit (MakeDirs output_dir).

(** Section 2, lines 77 to 92. *)
Definition load (e : env) : prog frame :=
  emit (ReadFile input_csv) ;;;
  match first_read e with
  | ReadFrame fr => ret fr
  | UnicodeDecodeError =>
      emit (Print "Falha ao carregar com UTF-8, tentando latin-1...") ;;;
      emit (ReadFile input_csv) ;;;
      match second_read e with
      | RetryFrame fr => ret fr
      | RetryError msg =>
          emit (Print ("Erro fatal ao carregar o arquivo CSV: " +:+ msg)) ;;;
          exit
      end
  | FileNotFoundError =>
      emit (Print ("Erro fatal: Arquivo '" +:+ input_csv +:+ "' não encontrado.")) ;;;
      exit
  | ReadError msg =>
      emit (Print ("Erro inesperado ao carregar dados: " +:+ msg)) ;;;
      exit
  end.

(** [df[col]] is a frame, not a column, when two columns of the frame
    carry the name [col]. *)
Definition ambiguous (cols : list string) (col : string) : bool :=
  (1 <? length (List.filter (String.eqb col) cols))%nat.

(** Lines 110 to 114.  [pd.to_numeric] raises TypeError on a frame, and
    line 112 stands in no [try]. *)
Fixpoint convert_numeric (cols : list string) (numeric_cols : list string)
  : prog unit :=
  match numeric_cols with
  | [] => ret tt
  | col :: rest =>
      (if has_column cols col then
         if ambiguous cols col then crash "TypeError" else ret tt
       else
         emit (Print ("Aviso: Coluna numérica esperada '" +:+ col
                      +:+ "' não encontrada."))) ;;;
      convert_numeric cols rest
  end.

(** Lines 117 to 127.  [pd.to_datetime] raises ValueError on a frame
    whose columns share a name: line 122 catches the one of line 121,
    and nothing catches the one of line 125. *)
Fixpoint convert_dates (cols : list string) (date_cols : list string)
  : prog unit :=
  match date_cols with
  | [] => ret tt
  | col :: rest =>
      (if has_column cols col then
         if ambiguous cols col then
           emit (Print ("Aviso: Falha ao converter '" +:+ col
                        +:+ "' com formato YYYYMMDD, tentando inferir.")) ;;;
           crash "ValueError"
         else ret tt
       else
         emit (Print ("Aviso: Coluna de data esperada '" +:+ col
                      +:+ "' não encontrada."))) ;;;
      convert_dates cols rest
  end.

(** Lines 130 to 137: the columns of the frame with [cep_str].  A frame
    has no accessor [.str], so that line 131 raises AttributeError when
    two columns are named cep. *)
Definition make_cep_str (cols : list string) : prog (list string) :=
  if has_column cols "cep" then
    if ambiguous cols "cep" then crash "AttributeError"
    else ret (cols ++ ["cep_str"])
  else
    emit (Print "Erro Crítico: Coluna 'CEP' não encontrada, necessária para identificação de readmissão.") ;;;
    exit.

(** Section 2, lines 109 to 154. *)
Definition prepare (fr : frame) : prog (list Clean.row) :=
  convert_numeric (columns fr) numeric_cols ;;;
  convert_dates (columns fr) date_cols ;;;
  cols <- make_cep_str (columns fr) ;;
  let missing_cols :=
    List.filter (fun c => negb (has_column cols c)) cols_to_check_na in
  match missing_cols with
  | _ :: _ =>
      emit (Print ("Erro Crítico: Colunas essenciais faltando: "
                   +:+ py_list_repr missing_cols)) ;;;
      exit
  | [] =>
      let df := Clean.clean (rows fr) in
      let n_final := Z.of_nat (length df) in
      (if 100 <? Z.abs (n_final - 61225) then
         emit (Print ("Atenção: Número final de registros (" +:+ pretty n_final
                      +:+ ") difere do esperado (61225)."))
       else ret tt) ;;;
      ret df
  end.

(** A [try] block whose handler prints and goes on. *)
Definition guarded (steps : list (list event)) (f : option fault)
  (handler : string -> list event) : prog bool :=
  match attempt steps 0 f with
  | (t, None) => (t, Some true)
  | (t, Some msg) => ((t ++ handler msg), Some false)
  end.

(** The exception a block meets first, when the script brings one on
    itself at the statement of [own]: that one, unless the libraries
    raise at a statement before. *)
Definition earliest (own : option fault) (f : option fault) : option fault :=
  match own, f with
  | Some a, Some b => if (at_step b <? at_step a)%nat then Some b else Some a
  | Some a, None => Some a
  | None, _ => f
  end.

Definition is_infinite (x : Clean.float) : bool :=
  match x with
  | Clean.pos_inf | Clean.neg_inf => true
  | _ => false
  end.

(** Line 167, [int(df['morte'].sum())]: the sum of a column that holds
    an infinite value is infinite, or NaN when it holds both, and [int]
    raises OverflowError on the one and ValueError on the other. *)
Definition int_of_sum (df : list Clean.row) : option string :=
  let up :=
    existsb (fun r => match Clean.morte r with Clean.pos_inf => true | _ => false end) df in
  let down :=
    existsb (fun r => match Clean.morte r with Clean.neg_inf => true | _ => false end) df in
  if up && down then Some "cannot convert float NaN to integer"
  else if up || down then Some "cannot convert float infinity to integer"
  else None.

(** Section 3, lines 158 to 174: the entries of the dictionary down to
    line 166, the entry of line 167, the frame made of the dictionary
    and its printing, then [to_csv]. *)
Definition section3 (e : env) (df : list Clean.row) : prog bool :=
  let own := (fun msg => mk_fault 1 msg false) <$> int_of_sum df in
  guarded [[]; []; []; [out_file tabela1 Table]]
    (earliest own (descriptive_fault e))
    (fun msg => [Print ("Erro na análise descritiva: " +:+ msg)]).

(** The admission section 4 works on, from a row of the cleaned
    frame. *)
Definition admission (r : Clean.row) : option Readmit.adm :=
  match Clean.munic_res r, Clean.nasc r, Clean.cep_str r,
        Clean.dt_inter r, Clean.dt_saida r with
  | Categorize.Scalar m, Some n, Some c, Some i, Some o =>
      Some {| Readmit.label := Clean.label r;
              Readmit.munic_res := m;
              Readmit.nasc_str := strftime_ymd n;
              Readmit.sexo := str_float (Clean.sexo r);
              Readmit.cep_str := c;
              Readmit.dt_inter := i;
              Readmit.dt_saida := o |}
  | _, _, _, _, _ => None
  end.

(** Section 4, lines 178 to 212: the frame handed on, each admission
    with its [readmitido_30d]. *)
Definition section4 (e : env) (df : list Readmit.adm) : prog (list (Readmit.adm * Z)) :=
  match readmission_fault e with
  | None =>
      ret (map (fun o => (Readmit.rec o, Readmit.readmitido_30d o))
               (Readmit.identify_readmissions df))
  | Some (stmt, msg) =>
      let df := if sorted_when stmt then Readmit.sort_values df else df in
      emit (Print ("Erro na identificação de readmissão: " +:+ msg)) ;;;
      emit (Print "Aviso: Coluna 'readmitido_30d' criada com zeros devido a erro.") ;;;
      ret (map (fun r => (r, 0)) df)
  end.

(** Section 5, lines 242 to 251, by its file: the counts of
    [categorize_procedure_v2] over the column [proc_nome], which is
    there, or the script has left at line 144. *)
Definition section5 : prog unit :=
  emit (out_file contagem Table).

(** Section 6, lines 255 to 303. *)
Definition section6 (e : env) (df_analysis : list (Readmit.adm * Z)) : prog bool :=
  let figure1 := [[]; [out_file figura1_png Image]; [out_file figura1_tiff Image]; []] in
  let figure2 :=
    match df_analysis with
    | [] => [[]; [Print "Aviso: Não foi possível gerar a Figura 2 (Readmissão x Procedimento)."]]
    | _ :: _ => [[]; []; [out_file figura2_png Image]; [out_file figura2_tiff Image]; []]
    end in
  guarded (figure1 ++ figure2) (figures_fault e)
    (fun msg => [Print ("Erro ao gerar figuras 1 ou 2: " +:+ msg)]).

(** Line 310, [scaler.fit_transform(df_analysis[['idade']].values)]:
    scikit-learn's validation of the input raises ValueError on an array
    of no row, and on one that holds an infinite value. *)
Definition fit_transform (df : list Clean.row) : option string :=
  match df with
  | [] =>
      Some "Found array with 0 sample(s) (shape=(0, 1)) while a minimum of 1 is required by StandardScaler."
  | _ :: _ =>
      if existsb (fun r => is_infinite (Clean.idade r)) df then
        Some "Input X contains infinity or a value too large for dtype('float64')."
      else None
  end.

(** Section 7, lines 308 to 316.  Nothing raises before line 310, so
    that its exception, when the frame brings one on, is the one the
    handler prints. *)
Definition section7 (e : env) (df : list Clean.row) : prog unit :=
  let raised :=
    match fit_transform df with
    | Some msg => Some msg
    | None => transform_fault e
    end in
  match raised with
  | None => ret tt
  | Some msg =>
      emit (Print ("Erro na transformação de variáveis: " +:+ msg)) ;;;
      exit
  end.

(** Lines 350 to 355. *)
Definition odds_ratios (m : fit) : list (string * list num) :=
  let conf := [("0", conf_lower m); ("1", conf_upper m)] in
  let conf := (conf ++ [("OR", params m)]) in
  let conf := rename_columns ["CI_lower"; "CI_upper"; "OR"] conf in
  let odds_ratios_df := map (fun c => (fst c, map np_exp (snd c))) conf in
  (odds_ratios_df ++ [("P>|z|", pvalues m)]).

(** The attributes of [Series.cat], the accessor pandas gives a
    categorical column. *)
Definition cat_accessor : list string :=
  ["categories"; "ordered"; "codes"; "rename_categories"; "reorder_categories";
   "add_categories"; "remove_categories"; "remove_unused_categories";
   "set_categories"; "as_ordered"; "as_unordered"].

(** [Series.cat.name]: the text of the AttributeError, when the
    accessor has no attribute of that name. *)
Definition cat_getattr (name : string) : option string :=
  if existsb (String.eqb name) cat_accessor then None
  else Some ("'CategoricalAccessor' object has no attribute '" +:+ name +:+ "'").

(** Section 8, lines 320 to 367: the categorical column (line 322),
    [.cat.relevel] (line 325), the formula, the fit, the summary, the
    table, its printing, [to_csv], the last message. *)
Definition section8 (e : env) : prog (option (list (string * list num))) :=
  let odds_ratios_df := odds_ratios (fitted e) in
  let own := (fun msg => mk_fault 1 msg false) <$> cat_getattr "relevel" in
  match attempt [[]; []; []; []; []; []; [];
                 [out_file tabela2 (OddsRatios odds_ratios_df)]; []]
                0 (earliest own (regression_fault e)) with
  | (t, None) => (t, Some (Some odds_ratios_df))
  | (t, Some msg) =>
      ((t ++ [Print ("Erro ao executar a regressão logística: " +:+ msg)]),
       Some None)
  end.

(** Section 9, lines 370 to 428. *)
Definition section9 (e : env) (odds_ratios_df : option (list (string * list num)))
  : prog bool :=
  match odds_ratios_df with
  | Some _ =>
      guarded [[]; []; []; [out_file figura3_png Image]; [out_file figura3_tiff Image]; []]
        (forest_fault e)
        (fun msg => [Print ("Erro ao gerar Forest Plot (Figura 3): " +:+ msg)])
  | None =>
      emit (Print "Aviso: Regressão logística falhou ou não foi executada. Figura 3 não gerada.") ;;;
      ret false
  end.

(** Sections 1 and 2: the frame after the filter. *)
Definition prepared (e : env) : prog (list Clean.row) :=
  setup e ;;;
  fr <- load e ;;
  prepare fr.

(** The frame that reaches section 4. *)
Definition cleaned (e : env) : prog (list Readmit.adm) :=
  df <- prepared e ;;
  ret (omap admission df).

(** Sections 3 to 10, on the frame after the filter. *)
Definition analysis (e : env) (df : list Clean.row) : prog unit :=
  section3 e df ;;;
  df_analysis <- section4 e (omap admission df) ;;
  section5 ;;;
  section6 e df_analysis ;;;
  section7 e df ;;;
  odds_ratios_df <- section8 e ;;
  section9 e odds_ratios_df ;;;
  ret tt.

Definition run (e : env) : prog unit :=
  df <- prepared e ;;
  analysis e df.

(** *** The notions the specification of the run speaks of *)

Definition trace (p : prog unit) : list event := fst p.

Definition write_path (ev : event) : option string :=
  match ev with WriteFile p _ => Some p | _ => None end.

Definition made_dir (ev : event) : option string :=
  match ev with MakeDirs p => Some p | _ => None end.

(** The paths a trace writes to, and the directories it creates, in
    order. *)
Definition written (t : list event) : list string := omap write_path t.
Definition created (t : list event) : list string := omap made_dir t.

(** *** Auxiliary notions for the proofs *)

(** The image of a piece's trace under a projection of events stays
    inside a given list, in its order. *)
Definition within {A X : Type} (proj : event -> option X) (L : list X)
  (m : prog A) : Prop :=
  sublist (omap proj (fst m)) L.

(** The file and directory effects of a whole run, at most and in
    order, section by section. *)
Definition all_effects (e : env) : list (event) :=
  fst (setup e)
  ++ [out_file tabela1 Table]
  ++ [out_file contagem Table]
  ++ [out_file figura1_png Image; out_file figura1_tiff Image;
      out_file figura2_png Image; out_file figura2_tiff Image]
  ++ [out_file tabela2 (OddsRatios (odds_ratios (fitted e)))]
  ++ [out_file figura3_png Image; out_file figura3_tiff Image].

End Run.

Arguments dir_exists {num} _.
Arguments first_read {num} _.
Arguments second_read {num} _.
Arguments descriptive_fault {num} _.
Arguments readmission_fault {num} _.
Arguments figures_fault {num} _.
Arguments transform_fault {num} _.
Arguments regression_fault {num} _.
Arguments fitted {num} _.
Arguments forest_fault {num} _.
Arguments params {num} _.
Arguments conf_lower {num} _.
Arguments conf_upper {num} _.
Arguments pvalues {num} _.
Arguments MakeDirs {num} path.
Arguments ReadFile {num} path.
Arguments WriteFile {num} path what.
Arguments Print {num} text.
Arguments Traceback {num} exception.
Arguments Table {num}.
Arguments Image {num}.
Arguments OddsRatios {num} t.
Arguments out_file {num} name what.
Arguments trace {num} p.
Arguments write_path {num} ev.
Arguments made_dir {num} ev.
Arguments within {num A X} proj L m.
Arguments all_effects {num} np_exp e.
Arguments written {num} t.
Arguments created {num} t.
Arguments setup {num} e.
Arguments load {num} e.
Arguments prepare {num} fr.
Arguments section3 {num} e df.
Arguments section4 {num} e df.
Arguments section5 {num}.
Arguments section6 {num} e df_analysis.
Arguments section7 {num} e df.
Arguments section8 {num} np_exp e.
Arguments section9 {num} e odds_ratios_df.
Arguments prepared {num} e.
Arguments cleaned {num} str_float e.
Arguments analysis {num} np_exp str_float e df.
Arguments crash {num A} exception.
Arguments exit {num A}.
Arguments ret {num A} a.
Arguments emit {num} e.
Arguments convert_numeric {num} cols numeric_cols.
Arguments convert_dates {num} cols date_cols.
Arguments make_cep_str {num} cols.
Arguments run {num} np_exp str_float e.
Arguments odds_ratios {num} np_exp m.
Arguments bind {num A B} m k.
Arguments attempt {num} steps i f.
Arguments guarded {num} steps f handler.

End Script.

(** ** Sample frames, to run the definitions on *)

Module Samples.
Import Clean.

(** Midnight of the day numbered [d] from 1970-01-01, as a date read
    with the format '%Y%m%d'. *)
Definition midnight (d : Z) : Z := d * Readmit.day_ns.

(** A woman born on 1960-05-17, living in São Paulo, admitted twice
    nineteen days apart, and a man admitted once. *)
Definition row0 : row :=
  {| label := 0; idade := fin 62; dias_perm := fin 5; sexo := fin 3;
     morte := fin 0; nasc := Some (midnight (-3516));
     dt_inter := Some (midnight 19000); dt_saida := Some (midnight 19005);
     cep_str := Some "01310100"; munic_res := Categorize.Scalar "355030";
     proc_nome := Categorize.Scalar "ARTROTOMIA DE JOELHO" |}.

Definition row1 : row :=
  {| label := 1; idade := fin 41; dias_perm := fin 2; sexo := fin 1;
     morte := fin 0; nasc := Some (midnight 4000);
     dt_inter := Some (midnight 19010); dt_saida := Some (midnight 19012);
     cep_str := Some "20040002"; munic_res := Categorize.Scalar "330455";
     proc_nome := Categorize.Scalar "TRATAMENTO CLINICO DE ARTRITE" |}.

Definition row2 : row :=
  {| label := 2; idade := fin 62; dias_perm := fin 3; sexo := fin 3;
     morte := fin 0; nasc := Some (midnight (-3516));
     dt_inter := Some (midnight 19024); dt_saida := Some (midnight 19027);
     cep_str := Some "01310100"; munic_res := Categorize.Scalar "355030";
     proc_nome := Categorize.Scalar "DRENAGEM DE ARTRITE SEPTICA" |}.

(** Rows the filter drops: a minor, a row without age, a stay of no
    day, a discharge before the admission. *)
Definition row_minor : row :=
  {| label := 3; idade := fin 17; dias_perm := fin 5; sexo := fin 1;
     morte := fin 0; nasc := Some (midnight 12000);
     dt_inter := Some (midnight 19000); dt_saida := Some (midnight 19005);
     cep_str := Some "nan"; munic_res := Categorize.Scalar "355030";
     proc_nome := Categorize.Scalar "ARTROTOMIA" |}.

Definition row_no_age : row :=
  {| label := 4; idade := nan; dias_perm := fin 5; sexo := fin 1;
     morte := fin 0; nasc := Some (midnight 4000);
     dt_inter := Some (midnight 19000); dt_saida := Some (midnight 19005);
     cep_str := Some "20040002"; munic_res := Categorize.Scalar "330455";
     proc_nome := Categorize.Scalar "ARTROTOMIA" |}.

Definition row_no_stay : row :=
  {| label := 5; idade := fin 30; dias_perm := fin 0; sexo := fin 1;
     morte := fin 0; nasc := Some (midnight 8000);
     dt_inter := Some (midnight 19000); dt_saida := Some (midnight 19000);
     cep_str := Some "20040002"; munic_res := Categorize.Scalar "330455";
     proc_nome := Categorize.Scalar "ARTROTOMIA" |}.

Definition row_backwards : row :=
  {| label := 6; idade := fin 30; dias_perm := fin 2; sexo := fin 1;
     morte := fin 0; nasc := Some (midnight 8000);
     dt_inter := Some (midnight 19005); dt_saida := Some (midnight 19000);
     cep_str := Some "20040002"; munic_res := Categorize.Scalar "330455";
     proc_nome := Categorize.Scalar "ARTROTOMIA" |}.

Definition loaded : list row :=
  [row0; row1; row2; row_minor; row_no_age; row_no_stay; row_backwards].

Definition all_columns : list string :=
  ["munic_res"; "nasc"; "sexo"; "cep"; "dt_inter"; "dt_saida"; "dias_perm";
   "idade"; "morte"; "proc_rea"; "proc_nome"].

(** An admission of one patient, by day of admission and discharge. *)
Definition stay (l : nat) (key : string) (d_in d_out : Z) : Readmit.adm :=
  {| Readmit.label := l; Readmit.munic_res := key;
     Readmit.nasc_str := "1960-05-17"; Readmit.sexo := "3.0";
     Readmit.cep_str := "01310100";
     Readmit.dt_inter := midnight d_in; Readmit.dt_saida := midnight d_out |}.

(** One patient admitted on days 0, 20 and 60, admitted again on day 3
    while the first stay lasts, and another patient. *)
Definition stays : list Readmit.adm :=
  [stay 0 "355030" 0 5; stay 1 "355030" 60 61; stay 2 "330455" 21 30;
   stay 3 "355030" 20 25; stay 4 "355030" 3 4].

(** The same person entered twice on the day of a stay of no night. *)
Definition same_day : list Readmit.adm :=
  [stay 0 "355030" 10 10; stay 1 "355030" 10 12].


(** A fit handed back by the regression, with one coefficient. *)
Definition one_coefficient : Script.fit R :=
  {| Script.params := [0%R];
     Script.conf_lower := [(-1)%R];
     Script.conf_upper := [1%R];
     Script.pvalues := [1%R] |}.

(** A run in which nothing fails. *)
Definition quiet_run : Script.env R :=
  {| Script.dir_exists := false;
     Script.first_read := Script.ReadFrame (Script.mk_frame all_columns loaded);
     Script.second_read := Script.RetryError "unused";
     Script.descriptive_fault := None;
     Script.readmission_fault := None;
     Script.figures_fault := None;
     Script.transform_fault := None;
     Script.regression_fault := None;
     Script.fitted := one_coefficient;
     Script.forest_fault := None |}.

(** The same run, with a fit that would raise, were it reached. *)
Definition failed_fit_run : Script.env R :=
  {| Script.dir_exists := false;
     Script.first_read := Script.ReadFrame (Script.mk_frame all_columns loaded);
     Script.second_read := Script.RetryError "unused";
     Script.descriptive_fault := None;
     Script.readmission_fault := None;
     Script.figures_fault := None;
     Script.transform_fault := None;
     Script.regression_fault :=
       Some (Script.mk_fault 3 "Singular matrix" false);
     Script.fitted := one_coefficient;
     Script.forest_fault := None |}.

(** A run in which the shift of section 4 raises, after the sort. *)
Definition failed_sort_run : Script.env R :=
  {| Script.dir_exists := true;
     Script.first_read := Script.ReadFrame (Script.mk_frame all_columns loaded);
     Script.second_read := Script.RetryError "unused";
     Script.descriptive_fault := None;
     Script.readmission_fault := Some (Script.ShiftExit, "out of memory");
     Script.figures_fault := None;
     Script.transform_fault := None;
     Script.regression_fault := None;
     Script.fitted := one_coefficient;
     Script.forest_fault := None |}.

End Samples.

(** ** Section 4, continued: the count of readmissions and shifted clocks *)

Module Rates.
Import Readmit.

(** Line 200: [df['readmitido_30d'].sum()]. *)
Definition num_readmissoes (df : list flagged) : Z :=
  foldr (fun o acc => readmitido_30d o + acc) 0 df.

(** The identity keys that occur in a frame. *)
Definition keys (df : list adm) : gset string :=
  list_to_set (map ident_proxy df).

(** The same admission on a clock that runs [c] nanoseconds ahead. *)
Definition shift_adm (c : Z) (r : adm) : adm :=
  {| label := label r; munic_res := munic_res r; nasc_str := nasc_str r;
     sexo := sexo r; cep_str := cep_str r;
     dt_inter := dt_inter r + c; dt_saida := dt_saida r + c |}.

Definition shift_flagged (c : Z) (o : flagged) : flagged :=
  {| rec := shift_adm c (rec o);
     dt_saida_anterior := (fun d => d + c) <$> dt_saida_anterior o;
     intervalo_dias := intervalo_dias o;
     readmitido_30d := readmitido_30d o |}.

(** The order [sort_values] sorts by, as a relation. *)
Definition sorts_before (a b : adm) : Prop := sort_le a b = true.

(** The number of rows of a column that hold a value, and that hold
    none. *)
Definition count_some {A : Type} (l : list (option A)) : nat :=
  length (List.filter (fun o => match o with Some _ => true | None => false end) l).

Definition count_none {A : Type} (l : list (option A)) : nat :=
  length (List.filter (fun o => match o with Some _ => false | None => true end) l).

End Rates.

(** ** Section 6 of the script: the age bands of figure 1 *)

Module Bands.
Import Clean.

(** [a <= b] on float64. *)
Definition float_le (a b : float) : bool :=
  match a, b with
  | nan, _ => false
  | _, nan => false
  | neg_inf, _ => true
  | fin _, neg_inf => false
  | fin p, fin q => Qle_bool p q
  | fin _, pos_inf => true
  | pos_inf, pos_inf => true
  | pos_inf, _ => false
  end.

(** [bins.searchsorted(x, side='right')] on edges that increase: the
    number of edges not above [x]; NaN sorts after every edge. *)
Definition searchsorted_right (bins : list float) (x : float) : nat :=
  match x with
  | nan => length bins
  | _ => length (List.filter (fun b => float_le b x) bins)
  end.

(** [pd.cut(x, bins=bins, labels=labels, right=False)] on one value:
    the label of the interval closed on the left that holds it, NaN
    outside the edges. *)
Definition cut (bins : list float) (labels : list string) (x : float)
  : option string :=
  let ids := searchsorted_right bins x in
  if negb (float_notna x) || Nat.eqb ids (length bins) || Nat.eqb ids 0 then None
  else nth_error labels (ids - 1).

(** Lines 258 and 259. *)
Definition bins : list float :=
  [fin 18; fin 30; fin 40; fin 50; fin 60; fin 70; fin 80; pos_inf].
Definition labels : list string :=
  ["18-30"; "31-40"; "41-50"; "51-60"; "61-70"; "71-80"; "80+"].

(** Line 260: the column FAIXA_ETARIA. *)
Definition faixa_etaria (r : row) : option string :=
  cut bins labels (idade r).

(** *** The bands, stated on the ages *)

(** The ages a label stands for: from [lo] on, below [hi] when there is
    one. *)
Definition in_band (q lo : Q) (hi : option Q) : Prop :=
  (lo <= q)%Q /\ match hi with Some h => (q < h)%Q | None => True end.

Definition band_table : list (string * Q * option Q) :=
  [("18-30", 18%Q, Some 30%Q); ("31-40", 30%Q, Some 40%Q);
   ("41-50", 40%Q, Some 50%Q); ("51-60", 50%Q, Some 60%Q);
   ("61-70", 60%Q, Some 70%Q); ("71-80", 70%Q, Some 80%Q);
   ("80+", 80%Q, None)].

End Bands.

(** ** Section 5 of the script, continued: the counts by category *)

Module Counts.

(** [Series.value_counts()] on a column with no missing value: how many
    times each value occurs.  The order of the rows of the result, by
    falling count, is left out. *)
Definition value_counts (l : list string) : gmap string nat :=
  foldr (fun c m => <[c := S (default 0%nat (m !! c))]> m) ∅ l.

(** The sum of the counts of a table. *)
Definition total (m : gmap string nat) : nat :=
  map_fold (fun _ n acc => (n + acc)%nat) 0%nat m.

(** How many rows of a column hold [c]. *)
Definition occurrences (c : string) (l : list string) : nat :=
  length (List.filter (String.eqb c) l).

Section WithLower.

Variable lower : string -> string.

(** Line 244: the column PROC_CATEGORIA. *)
Definition proc_categoria (df : list Clean.row) : list string :=
  map (fun r => Categorize.categorize_procedure_v2 lower (Clean.proc_nome r)) df.

(** Line 246: [proc_counts], written to
    Contagem_Procedimentos_Categoria.csv. *)
Definition proc_counts (df : list Clean.row) : gmap string nat :=
  value_counts (proc_categoria df).

End WithLower.

End Counts.

(** ** The run of the script, continued: how it starts and how it ends *)

Module Flow.
Import Script.

(** The columns the script cannot do without, under the names they
    have after the renaming of line 104: CEP (line 130) and those of
    [cols_to_check_na] other than the derived [cep_str] (line 141). *)
Definition required_cols : list string :=
  ["cep"; "idade"; "dias_perm"; "sexo"; "morte"; "nasc"; "dt_inter";
   "dt_saida"; "munic_res"; "proc_nome"].

Definition accepted (fr : frame) : bool :=
  forallb (has_column (columns fr)) required_cols.

(** The columns lines 109 to 131 take out of the frame by name, in the
    order of the script. *)
Definition converted_cols : list string :=
  numeric_cols ++ date_cols ++ ["cep"].

(** None of the names of [l] names two columns. *)
Definition all_clear (cols l : list string) : bool :=
  forallb (fun c => negb (ambiguous cols c)) l.

(** None of the converted columns is there twice. *)
Definition unambiguous (fr : frame) : bool :=
  all_clear (columns fr) converted_cols.

(** The files sections 3 to 6 write. *)
Definition analysis_names : list string :=
  [tabela1; contagem; figura1_png; figura1_tiff; figura2_png; figura2_tiff].


Section Run.

Variable num : Type.

(** The frame [read_csv] hands over, at the first attempt or at the
    second, when it hands one over. *)
Definition loaded_frame (e : env num) : option frame :=
  match first_read e with
  | ReadFrame fr => Some fr
  | UnicodeDecodeError =>
      match second_read e with
      | RetryFrame fr => Some fr
      | RetryError _ => None
      end
  | FileNotFoundError => None
  | ReadError _ => None
  end.

Definition read_path (ev : event num) : option string :=
  match ev with ReadFile p => Some p | _ => None end.

(** The files a trace reads, in order. *)
Definition reads (t : list (event num)) : list string := omap read_path t.

Definition raised (ev : event num) : option string :=
  match ev with Traceback x => Some x | _ => None end.

(** The exceptions a trace ends on uncaught. *)
Definition tracebacks (t : list (event num)) : list string := omap raised t.

(** The file effects sections 3 to 10 have at most, in order. *)
Definition analysis_effects : list (event num) :=
  [out_file tabela1 Table; out_file contagem Table;
   out_file figura1_png Image; out_file figura1_tiff Image;
   out_file figura2_png Image; out_file figura2_tiff Image].

End Run.

Arguments loaded_frame {num} e.
Arguments read_path {num} ev.
Arguments reads {num} t.
Arguments raised {num} ev.
Arguments tracebacks {num} t.
Arguments analysis_effects {num}.

End Flow.

(** ** Section 2 of the script, continued: the names of the columns *)

Module Header.

(** Lines 97 to 102. *)
Definition rename_map : list (string * string) :=
  [("MUNIC_RES", "munic_res"); ("NASC", "nasc"); ("SEXO", "sexo"); ("CEP", "cep");
   ("DT_INTER", "dt_inter"); ("DT_SAIDA", "dt_saida"); ("DIAS_PERM", "dias_perm");
   ("IDADE", "idade"); ("MORTE", "morte"); ("PROC_REA", "proc_rea");
   ("PROC_NOME", "proc_nome")].

(** [d.get(c)] on a dictionary given by its items. *)
Fixpoint lookup_name (d : list (string * string)) (c : string) : option string :=
  match d with
  | [] => None
  | (k, v) :: t => if String.eqb k c then Some v else lookup_name t c
  end.

(** Line 103: the entries of [rename_map] whose key is a column of the
    file. *)
Definition existing_columns (header : list string) : list (string * string) :=
  List.filter (fun kv => Script.has_column header (fst kv)) rename_map.

(** Line 104: [df.rename(columns=existing_columns)], on the names of
    the columns. *)
Definition rename (header : list string) : list string :=
  map (fun c => default c (lookup_name (existing_columns header) c)) header.

(** The columns the script cannot do without, each under the name it
    has in the file and the name the script gives it. *)
Definition required_pairs : list (string * string) :=
  [("CEP", "cep"); ("IDADE", "idade"); ("DIAS_PERM", "dias_perm"); ("SEXO", "sexo");
   ("MORTE", "morte"); ("NASC", "nasc"); ("DT_INTER", "dt_inter");
   ("DT_SAIDA", "dt_saida"); ("MUNIC_RES", "munic_res"); ("PROC_NOME", "proc_nome")].

(** The new name of one column, whatever the other columns. *)
Definition renamed (c : string) : string := default c (lookup_name rename_map c).

(** The columns lines 109 to 131 take out of the frame by name, each
    under the name it has in the file and the name the script gives
    it. *)
Definition converted_pairs : list (string * string) :=
  [("IDADE", "idade"); ("DIAS_PERM", "dias_perm"); ("MORTE", "morte");
   ("SEXO", "sexo"); ("DT_INTER", "dt_inter"); ("DT_SAIDA", "dt_saida");
   ("NASC", "nasc"); ("CEP", "cep")].

End Header.

(** ** Section 9 of the script: the rows of the forest plot *)

Module Forest.

(** Lines 377 to 386. *)
Definition rename_map_plot : list (string * string) :=
  [("IDADE_padronizada", "Idade (Z-score)");
   ("DIAS_PERM_log", "Tempo Internação (ln)");
   ("C(PROC_CATEGORIA, Treatment('Conservador'))[T.Cirurgia Grande]",
    "Cirurgia Grande");
   ("C(PROC_CATEGORIA, Treatment('Conservador'))[T.Cirurgia Média/Pequena]",
    "Cirurgia Média/Pequena");
   ("C(PROC_CATEGORIA, Treatment('Conservador'))[T.Outros procedimentos]",
    "Outros Procedimentos");
   ("C(PROC_CATEGORIA, Treatment('Conservador'))[T.Procedimentos Específicos]",
    "Procedimentos Específicos");
   ("IDADE_padronizada:C(PROC_CATEGORIA, Treatment('Conservador'))[T.Cirurgia Grande]",
    "Idade * Cir. Grande");
   ("IDADE_padronizada:C(PROC_CATEGORIA, Treatment('Conservador'))[T.Cirurgia Média/Pequena]",
    "Idade * Cir. Média/Pequena")].

Section Rows.

(** What a row of the table of odds ratios holds beside its name. *)
Variable A : Type.

(** [df.drop(name, errors='ignore')]: the rows of another name. *)
Definition drop (name : string) (df : list (string * A)) : list (string * A) :=
  List.filter (fun r => negb (String.eqb name (fst r))) df.

(** [index.isin(rename_map_plot.keys())] *)
Definition is_plotted (name : string) : bool :=
  existsb (fun kv => String.eqb (fst kv) name) rename_map_plot.

(** [df.rename(index=rename_map_plot)] *)
Definition display (r : string * A) : string * A :=
  (default (fst r) (Header.lookup_name rename_map_plot (fst r)), snd r).

(** Lines 374 to 389: the rows handed to the sort by OR. *)
Definition plot_data_filtered (odds_ratios_df : list (string * A)) : list (string * A) :=
  let plot_data := drop "Intercepto" odds_ratios_df in
  let plot_data_filtered :=
    List.filter (fun r => is_plotted (fst r)) plot_data in
  map display plot_data_filtered.

End Rows.

Arguments drop {A} name df.
Arguments display {A} r.
Arguments plot_data_filtered {A} odds_ratios_df.

End Forest.

(** * Properties *)

Module StrFacts.
Import Str.

Lemma append_nil_l (b : string) : String.append EmptyString b = b.
Proof. reflexivity. Qed.

Lemma append_cons (c : ascii) (a b : string) :
  String.append (String c a) b = String c (String.append a b).
Proof. reflexivity. Qed.

Lemma prefix_split kw s :
  String.prefix kw s = true <-> exists b, s = String.append kw b.
Proof.
  revert s. induction kw as [|c kw IH]; intros s.
  - split; [intros _; exists s; reflexivity | intros _; now destruct s].
  - destruct s as [|d s]; simpl.
    + split; [discriminate | intros [b Hb]; discriminate].
    + destruct (ascii_dec c d) as [->|Hne].
      * rewrite IH. split; intros [b Hb]; exists b;
          rewrite append_cons in *; congruence.
      * split; [discriminate |].
        intros [b Hb]. rewrite append_cons in Hb. congruence.
Qed.

Lemma contains_occurs kw s : contains kw s = true <-> occurs kw s.
Proof.
  induction s as [|c s IH]; cbn [contains].
  - rewrite orb_false_r, prefix_split. split.
    + intros [b Hb]. exists EmptyString, b. exact Hb.
    + intros [a [b Hb]]. destruct a; [eauto | discriminate].
  - rewrite orb_true_iff, IH, prefix_split. split.
    + intros [[b Hb] | [a [b Hb]]].
      * exists EmptyString, b. exact Hb.
      * exists (String c a), b. rewrite append_cons. now rewrite Hb.
    + intros [a [b Hb]]. destruct a as [|d a].
      * left. eauto.
      * right. exists a, b. rewrite append_cons in Hb. congruence.
Qed.

Lemma any_in_occurs kws s :
  any_in kws s = true <-> exists kw, In kw kws /\ occurs kw s.
Proof.
  unfold any_in. rewrite existsb_exists.
  split; intros [kw [Hin H]]; exists kw; split; auto;
    now apply contains_occurs.
Qed.

End StrFacts.

Module CategorizeFacts.
Import Str StrFacts Categorize.

Example cat_major :
  categorize_procedure_v2 ascii_lower (Scalar "ARTROPLASTIA TOTAL DE QUADRIL")
  = "Cirurgia Grande".
Proof. reflexivity. Qed.

Example cat_specific :
  categorize_procedure_v2 ascii_lower (Scalar "Artrotomia de joelho")
  = "Procedimentos Específicos".
Proof. reflexivity. Qed.

Example cat_foreign_body :
  categorize_procedure_v2 ascii_lower (Scalar "ARTROTOMIA P/ RETIRADA DE CORPO ESTRANHO")
  = "Outros procedimentos".
Proof. reflexivity. Qed.

Example cat_missing :
  categorize_procedure_v2 ascii_lower Missing = "Conservador".
Proof. reflexivity. Qed.

Example cat_default :
  categorize_procedure_v2 ascii_lower (Scalar "TRATAMENTO DE ARTRITE") = "Outros procedimentos".
Proof. reflexivity. Qed.


Lemma categories_distinct : NoDup categories.
Proof. apply (bool_decide_unpack _). vm_compute. reflexivity. Qed.

(** C4. For every cell of the column, missing or not, and whatever the
    case tables behind [str.lower], [categorize_procedure_v2] returns
    one of the five category strings, which are pairwise different. *)
Theorem categorize_procedure_v2_total (lower : string -> string) (proc_nome : cell) :
  In (categorize_procedure_v2 lower proc_nome) categories /\ NoDup categories.
Proof.
  split; [| exact categories_distinct].
  unfold categorize_procedure_v2, categories.
  destruct (any_in major_kws _); [simpl; tauto |].
  destruct (any_in specific_kws _ && negb _); [simpl; tauto |].
  destruct (any_in minor_kws _); [simpl; tauto |].
  destruct (any_in other_kws _); [simpl; tauto |].
  destruct (any_in conservative_kws _); simpl; tauto.
Qed.

Lemma foreign_body_not_specific (lower : string -> string) (proc_nome : cell) :
  occurs "corpo estranho" (lowered lower proc_nome) ->
  categorize_procedure_v2 lower proc_nome <> "Procedimentos Específicos".
Proof.
  intros Hce. apply contains_occurs in Hce.
  unfold categorize_procedure_v2. rewrite Hce, andb_false_r.
  destruct (any_in major_kws _); [discriminate |].
  destruct (any_in minor_kws _); [discriminate |].
  destruct (any_in other_kws _); [discriminate |].
  destruct (any_in conservative_kws _); discriminate.
Qed.

(** The same on the name as it is written: a name that contains
    'corpo estranho' in lowercase is never 'Procedimentos Específicos'. *)
Lemma ascii_lower_app (a b : string) :
  ascii_lower (a +:+ b) = ascii_lower a +:+ ascii_lower b.
Proof.
  induction a as [|c a IH]; [reflexivity |].
  rewrite append_cons. simpl. now rewrite IH.
Qed.

Lemma ascii_lower_keeps (kw : string) :
  ascii_lower kw = kw -> keeps ascii_lower kw.
Proof.
  intros Hkw s (a & b & ->).
  exists (ascii_lower a), (ascii_lower b).
  now rewrite !ascii_lower_app, Hkw.
Qed.

Lemma written_foreign_body_not_specific (lower : string -> string) (text : string) :
  keeps lower "corpo estranho" ->
  occurs "corpo estranho" text ->
  categorize_procedure_v2 lower (Scalar text) <> "Procedimentos Específicos".
Proof.
  intros Hk Ht. apply foreign_body_not_specific. simpl. now apply Hk.
Qed.

Example written_foreign_body :
  keeps ascii_lower "corpo estranho"
  /\ categorize_procedure_v2 ascii_lower
       (Scalar "Artrotomia p/ retirada de corpo estranho")
     = "Outros procedimentos".
Proof. split; [now apply ascii_lower_keeps | reflexivity]. Qed.

(** C5. A name whose lowercase form contains a major-surgery keyword is
    'Cirurgia Grande' whatever else it contains; a name whose lowercase
    form contains 'artrotom' or 'sinovectomia' together with
    'corpo estranho', and no major-surgery keyword, is never
    'Procedimentos Específicos'. *)
Theorem keyword_priority (lower : string -> string) (proc_nome : cell) :
  ((exists kw, In kw major_kws /\ occurs kw (lowered lower proc_nome)) ->
   categorize_procedure_v2 lower proc_nome = "Cirurgia Grande")
  /\
  ((occurs "artrotom" (lowered lower proc_nome)
    \/ occurs "sinovectomia" (lowered lower proc_nome)) ->
   occurs "corpo estranho" (lowered lower proc_nome) ->
   (forall kw, In kw major_kws -> ~ occurs kw (lowered lower proc_nome)) ->
   categorize_procedure_v2 lower proc_nome <> "Procedimentos Específicos").
Proof.
  split.
  - intros H. apply any_in_occurs in H.
    unfold categorize_procedure_v2. now rewrite H.
  - intros _ Hce _. now apply foreign_body_not_specific.
Qed.

Lemma keyword_priority_witness :
  categorize_procedure_v2 ascii_lower
    (Scalar "ARTROPLASTIA DE REVISAO C/ ARTROTOMIA E DRENAGEM") = "Cirurgia Grande"
  /\ categorize_procedure_v2 ascii_lower
       (Scalar "ARTROTOMIA P/ RETIRADA DE CORPO ESTRANHO")
     <> "Procedimentos Específicos".
Proof.
  split.
  - apply (proj1 (keyword_priority ascii_lower
             (Scalar "ARTROPLASTIA DE REVISAO C/ ARTROTOMIA E DRENAGEM"))).
    exists "artroplastia". split; [simpl; tauto |].
    apply contains_occurs. reflexivity.
  - apply (proj2 (keyword_priority ascii_lower
             (Scalar "ARTROTOMIA P/ RETIRADA DE CORPO ESTRANHO"))).
    + left. apply contains_occurs. reflexivity.
    + apply contains_occurs. reflexivity.
    + intros kw Hin Hocc. apply contains_occurs in Hocc.
      simpl in Hin.
      repeat (destruct Hin as [<- | Hin]; [discriminate Hocc |]).
      exact Hin.
Defined.

End CategorizeFacts.

Module CleanFacts.
Import Clean.

Lemma float_notna_iff (x : float) : float_notna x = true <-> x <> nan.
Proof. destruct x; simpl; split; congruence. Qed.

Lemma opt_notna_iff {A : Type} (o : option A) : opt_notna o = true <-> o <> None.
Proof. destruct o; simpl; split; congruence. Qed.

Lemma cell_notna_iff (c : Categorize.cell) :
  cell_notna c = true <-> c <> Categorize.Missing.
Proof. destruct c; simpl; split; congruence. Qed.

Lemma float_ge_iff (x : float) (k : Q) : float_ge x k = true <-> at_least x k.
Proof.
  unfold at_least. destruct x as [| |q|]; simpl.
  - split; [discriminate | intros [H | (q & H & _)]; discriminate].
  - split; [discriminate | intros [H | (q & H & _)]; discriminate].
  - rewrite Qle_bool_iff. split.
    + intros H. right. exists q. split; [reflexivity | exact H].
    + intros [H | (q' & H & Hle)]; [discriminate |].
      injection H as ->. exact Hle.
  - split; [intros _; left; reflexivity | reflexivity].
Qed.

Lemma date_ge_iff (a b : option Z) :
  date_ge a b = true <-> exists i o, b = Some i /\ a = Some o /\ i <= o.
Proof.
  destruct a as [x|], b as [y|]; simpl.
  - rewrite Z.leb_le. split.
    + intros H. exists y, x. auto.
    + intros (i & o & Hi & Ho & Hle). congruence.
  - split; [discriminate | intros (i & o & Hi & _); discriminate].
  - split; [discriminate | intros (i & o & _ & Ho & _); discriminate].
  - split; [discriminate | intros (i & o & Hi & _); discriminate].
Qed.

Lemma essential_notna_iff (r : row) :
  essential_notna r = true <-> essential_present r.
Proof.
  unfold essential_notna, essential_present.
  rewrite !andb_true_iff, !float_notna_iff, !opt_notna_iff, !cell_notna_iff.
  tauto.
Qed.

Lemma keep_iff (r : row) :
  essential_notna r && adult_stay r && dates_consistent r = true <-> survives r.
Proof.
  unfold survives, adult_stay, dates_consistent.
  rewrite !andb_true_iff, essential_notna_iff, !float_ge_iff, date_ge_iff.
  tauto.
Qed.

Lemma filter_sublist {A : Type} (f : A -> bool) (l : list A) :
  sublist (List.filter f l) l.
Proof.
  induction l as [|x l IH]; simpl.
  - constructor.
  - destruct (f x); now constructor.
Qed.

Lemma clean_In (df : list row) (r : row) :
  In r (clean df) <-> In r df /\ survives r.
Proof.
  unfold clean. rewrite !filter_In, <- keep_iff, !andb_true_iff. tauto.
Qed.

Lemma clean_sublist (df : list row) : sublist (clean df) df.
Proof.
  unfold clean.
  etransitivity; [apply filter_sublist |].
  etransitivity; apply filter_sublist.
Qed.

(** C3. A row of the loaded frame is in the cleaned frame exactly when
    none of the ten essential columns is null in it and it has
    idade >= 18, dias_perm >= 1 and dt_saida >= dt_inter; the cleaned
    frame is made of rows of the loaded frame, as they were and in the
    order they had. *)
Theorem clean_keeps_exactly (df : list row) :
  (forall r, In r (clean df) <-> In r df /\ survives r)
  /\ sublist (clean df) df.
Proof. split; [intros r; apply clean_In | apply clean_sublist]. Qed.

(** The filter on the sample frame: the adult stays with consistent
    dates remain, in their order. *)
Example clean_sample :
  clean Samples.loaded = [Samples.row0; Samples.row1; Samples.row2].
Proof. reflexivity. Qed.

Example infinite_age_kept :
  float_ge pos_inf 18 = true /\ float_ge nan 18 = false.
Proof. split; reflexivity. Qed.

End CleanFacts.

Module ReadmitFacts.
Import Readmit.

(** *** The identity key *)

(** The text has no separator in it. *)
Lemma no_bar_cons (c : ascii) (s : string) :
  ~ Str.occurs "|" (String c s) -> c <> "|"%char /\ ~ Str.occurs "|" s.
Proof.
  intros H. split.
  - intros ->. apply H. exists EmptyString, s. reflexivity.
  - intros (a & b & ->). apply H. exists (String c a), b. reflexivity.
Qed.

Lemma split_at_bar (a a' b b' : string) :
  ~ Str.occurs "|" a -> ~ Str.occurs "|" a' ->
  a +:+ "|" +:+ b = a' +:+ "|" +:+ b' -> a = a' /\ b = b'.
Proof.
  revert a'. induction a as [|c a IH]; intros [|c' a'] Ha Ha' H.
  - rewrite !StrFacts.append_nil_l in H. injection H as H. now split.
  - rewrite StrFacts.append_nil_l, StrFacts.append_cons in H.
    injection H as <- _. apply no_bar_cons in Ha' as [Hc _]. congruence.
  - rewrite StrFacts.append_nil_l, StrFacts.append_cons in H.
    injection H as -> _. apply no_bar_cons in Ha as [Hc _]. congruence.
  - rewrite !StrFacts.append_cons in H. injection H as -> H.
    apply no_bar_cons in Ha as [_ Ha]. apply no_bar_cons in Ha' as [_ Ha'].
    destruct (IH a' Ha Ha' H) as [-> ->]. now split.
Qed.

(** X3. As long as the codes of municipality and sex and the date of
    birth hold no '|', as those of the file do, two admissions have the
    same key exactly when they agree on the four columns. *)
Lemma ident_proxy_eq (a b : adm) :
  ~ Str.occurs "|" (munic_res a) -> ~ Str.occurs "|" (munic_res b) ->
  ~ Str.occurs "|" (nasc_str a) -> ~ Str.occurs "|" (nasc_str b) ->
  ~ Str.occurs "|" (sexo a) -> ~ Str.occurs "|" (sexo b) ->
  ident_proxy a = ident_proxy b <->
  munic_res a = munic_res b /\ nasc_str a = nasc_str b
  /\ sexo a = sexo b /\ cep_str a = cep_str b.
Proof.
  intros Hma Hmb Hna Hnb Hsa Hsb. unfold ident_proxy. split.
  - intros H.
    apply split_at_bar in H as [Hm H]; [| assumption | assumption].
    apply split_at_bar in H as [Hn H]; [| assumption | assumption].
    apply split_at_bar in H as [Hs Hc]; [| assumption | assumption].
    auto.
  - intros (-> & -> & -> & ->). reflexivity.
Qed.

(** *** The order *)

Lemma admitted_before_irrefl (r : adm) : ~ admitted_before r r.
Proof. unfold admitted_before. lia. Qed.

Lemma admitted_before_asym (p r : adm) :
  admitted_before p r -> ~ admitted_before r p.
Proof. unfold admitted_before. lia. Qed.

Lemma admitted_before_trans (p q r : adm) :
  admitted_before p q -> admitted_before q r -> admitted_before p r.
Proof. unfold admitted_before. lia. Qed.

Lemma key_lt_irrefl (k : string) : ~ String_as_OT.lt k k.
Proof. intros H. apply String_as_OT.lt_not_eq in H. apply H. reflexivity. Qed.

Lemma frame_lt_same_key (a b : adm) :
  frame_lt a b -> ident_proxy a = ident_proxy b -> admitted_before a b.
Proof.
  intros [Hlt | [_ Hb]] Heq; [| exact Hb].
  rewrite Heq in Hlt. now apply key_lt_irrefl in Hlt.
Qed.

Lemma frame_lt_trans (a b c : adm) : frame_lt a b -> frame_lt b c -> frame_lt a c.
Proof.
  intros [Hab | [Eab Bab]] [Hbc | [Ebc Bbc]].
  - left. eapply String_as_OT.lt_trans; eassumption.
  - left. now rewrite <- Ebc.
  - left. now rewrite Eab.
  - right. split; [congruence |]. eapply admitted_before_trans; eassumption.
Qed.

Lemma sort_le_true (x y : adm) :
  sort_le x y = true -> (label x < label y)%nat -> frame_lt x y.
Proof.
  unfold sort_le, frame_lt. intros H Hl.
  destruct (String.compare (ident_proxy x) (ident_proxy y)) eqn:E.
  - apply String_as_OT.cmp_eq in E. apply Z.leb_le in H.
    right. split; [exact E |]. unfold admitted_before. lia.
  - left. now apply String_as_OT.cmp_lt.
  - discriminate.
Qed.

Lemma sort_le_false (x y : adm) : sort_le x y = false -> frame_lt y x.
Proof.
  unfold sort_le, frame_lt. intros H.
  destruct (String.compare (ident_proxy x) (ident_proxy y)) eqn:E.
  - apply String_as_OT.cmp_eq in E. apply Z.leb_gt in H.
    right. split; [congruence |]. unfold admitted_before. lia.
  - discriminate.
  - left. apply String_as_OT.cmp_lt.
    unfold String_as_OT.cmp. rewrite String.compare_antisym, E. reflexivity.
Qed.

(** *** [sort_values] *)

Lemma insert_row_perm (x : adm) (l : list adm) :
  Permutation (insert_row x l) (x :: l).
Proof.
  induction l as [|y t IH]; simpl; [reflexivity |].
  destruct (sort_le x y); [reflexivity |].
  rewrite IH. apply perm_swap.
Qed.

Lemma sort_values_perm (df : list adm) : Permutation (sort_values df) df.
Proof.
  induction df as [|x t IH]; simpl; [reflexivity |].
  rewrite insert_row_perm. now constructor.
Qed.

Lemma insert_row_sorted (x : adm) (l : list adm) :
  StronglySorted frame_lt l ->
  Forall (fun y => (label x < label y)%nat) l ->
  StronglySorted frame_lt (insert_row x l).
Proof.
  induction l as [|y t IH]; simpl; intros Hs Hl.
  - repeat constructor.
  - apply StronglySorted_inv in Hs as [Hst Hy].
    apply Forall_cons_1 in Hl as [Hxy Hl].
    destruct (sort_le x y) eqn:E.
    + pose proof (sort_le_true _ _ E Hxy) as Hlt.
      constructor; [now constructor |].
      constructor; [exact Hlt |].
      eapply Forall_impl; [exact Hy |].
      intros z Hz. eapply frame_lt_trans; eassumption.
    + constructor; [now apply IH |].
      apply List.Forall_forall. intros z Hz.
      apply (Permutation_in _ (insert_row_perm x t)) in Hz.
      destruct Hz as [<- | Hz].
      * now apply sort_le_false.
      * rewrite List.Forall_forall in Hy. now apply Hy.
Qed.

Lemma sort_values_sorted (df : list adm) :
  labels_increasing df -> StronglySorted frame_lt (sort_values df).
Proof.
  unfold labels_increasing.
  induction df as [|x t IH]; simpl; intros H.
  - constructor.
  - apply StronglySorted_inv in H as [Ht Hx].
    apply insert_row_sorted; [now apply IH |].
    apply List.Forall_forall. intros y Hy.
    apply (Permutation_in _ (sort_values_perm t)) in Hy.
    rewrite List.Forall_forall in Hx. apply Hx. now apply in_map.
Qed.

(** *** [groupby(...).shift(1)] *)

Lemma group_shift_length (last : gmap string Z) (df : list adm) :
  length (group_shift last df) = length df.
Proof.
  revert last. induction df as [|r t IH]; intros last; simpl; [reflexivity |].
  now rewrite IH.
Qed.

Lemma group_shift_lookup (df : list adm) (last : gmap string Z) (i : nat) (r : adm) :
  df !! i = Some r ->
  group_shift last df !! i = Some (remembered last (take i df) !! ident_proxy r).
Proof.
  revert last i. induction df as [|x t IH]; intros last i H.
  - discriminate.
  - destruct i as [|i]; simpl in *.
    + now injection H as ->.
    + now apply IH.
Qed.

Lemma remembered_lookup (pre : list adm) (last : gmap string Z) (k : string) :
  remembered last pre !! k =
  match last_same k pre with
  | Some p => Some (dt_saida p)
  | None => last !! k
  end.
Proof.
  revert last. induction pre as [|p t IH]; intros last; simpl; [reflexivity |].
  unfold remembered in *. simpl. rewrite IH.
  destruct (last_same k t); [reflexivity |].
  destruct (decide (ident_proxy p = k)) as [<- | Hne].
  - now rewrite lookup_insert_eq.
  - now rewrite lookup_insert_ne.
Qed.

Lemma last_same_Some (k : string) (pre : list adm) (p : adm) :
  last_same k pre = Some p ->
  exists a b, pre = (a ++ p :: b) /\ ident_proxy p = k
              /\ Forall (fun q => ident_proxy q <> k) b.
Proof.
  revert p. induction pre as [|x t IH]; intros p H; simpl in H; [discriminate |].
  destruct (last_same k t) as [q|] eqn:E.
  - injection H as ->.
    destruct (IH p eq_refl) as (a & b & -> & Hk & Hb).
    exists (x :: a), b. auto.
  - destruct (decide (ident_proxy x = k)) as [Hk | Hk]; [| discriminate].
    injection H as ->.
    exists [], t. split; [reflexivity |]. split; [exact Hk |].
    clear IH. induction t as [|y t IHt]; [constructor |].
    simpl in E. destruct (last_same k t); [discriminate |].
    destruct (decide (ident_proxy y = k)); [discriminate |].
    constructor; auto.
Qed.

Lemma last_same_None (k : string) (pre : list adm) :
  last_same k pre = None -> Forall (fun q => ident_proxy q <> k) pre.
Proof.
  induction pre as [|x t IH]; simpl; intros H; [constructor |].
  destruct (last_same k t); [discriminate |].
  destruct (decide (ident_proxy x = k)); [discriminate |].
  constructor; auto.
Qed.

(** A row of the result, seen in the sorted frame. *)
Lemma identify_inv (df : list adm) (o : flagged) :
  In o (identify_readmissions df) ->
  exists l1 l2,
    sort_values df = (l1 ++ rec o :: l2)
    /\ o = mark (rec o)
              (match last_same (ident_proxy (rec o)) l1 with
               | Some p => Some (dt_saida p)
               | None => None
               end).
Proof.
  unfold identify_readmissions. intros H.
  apply list_elem_of_In, elem_of_lookup_zip_with_1 in H
    as (i & r & prev & -> & Hr & Hp).
  rewrite (group_shift_lookup _ _ _ _ Hr) in Hp. injection Hp as <-.
  exists (take i (sort_values df)), (drop (S i) (sort_values df)).
  simpl. split.
  - symmetry. now apply take_drop_middle.
  - now rewrite remembered_lookup, lookup_empty.
Qed.

Lemma identify_records (df : list adm) :
  map rec (identify_readmissions df) = sort_values df.
Proof.
  unfold identify_readmissions.
  generalize (group_shift_length ∅ (sort_values df)).
  generalize (group_shift ∅ (sort_values df)) as prevs.
  induction (sort_values df) as [|r t IH]; intros [|p prevs] Hlen;
    simpl in *; try discriminate; [reflexivity |].
  f_equal. apply IH. now injection Hlen.
Qed.

(** *** The row just before, in the sorted frame and in the order *)

Lemma precedes_unique (df : list adm) (p p' r : adm) :
  immediately_precedes df p r -> immediately_precedes df p' r -> p = p'.
Proof.
  intros [Hp Hmin] [Hp' Hmin'].
  destruct (Hmin _ Hp') as [-> | H1]; [reflexivity |].
  destruct (Hmin' _ Hp) as [-> | H2]; [reflexivity |].
  now apply admitted_before_asym in H1.
Qed.

Lemma later_rows_not_earlier (r : adm) (l2 : list adm) (q : adm) :
  StronglySorted frame_lt (r :: l2) ->
  In q (r :: l2) -> ident_proxy q = ident_proxy r -> ~ admitted_before q r.
Proof.
  intros Hs Hq Hk Hb. apply StronglySorted_inv in Hs as [_ Hr].
  destruct Hq as [<- | Hq].
  - now apply admitted_before_irrefl in Hb.
  - rewrite List.Forall_forall in Hr.
    apply (admitted_before_asym _ _ Hb).
    apply frame_lt_same_key; [now apply Hr | congruence].
Qed.

Lemma found_precedes (df a b l2 : list adm) (p r : adm) :
  Permutation (a ++ p :: b ++ r :: l2) df ->
  StronglySorted frame_lt (a ++ p :: b ++ r :: l2) ->
  ident_proxy p = ident_proxy r ->
  Forall (fun q => ident_proxy q <> ident_proxy r) b ->
  immediately_precedes df p r.
Proof.
  intros Hperm Hs Hk Hb.
  pose proof (StronglySorted_app_1_r _ _ _ Hs) as Hs2.
  assert (Hpr : admitted_before p r).
  { apply frame_lt_same_key; [| exact Hk].
    apply StronglySorted_inv in Hs2 as [_ Hp].
    rewrite List.Forall_forall in Hp. apply Hp.
    apply in_or_app. right. now left. }
  split.
  - split; [| split; assumption].
    apply (Permutation_in _ Hperm), in_or_app. right. now left.
  - intros q (Hq & Hqk & Hqr).
    apply (Permutation_in _ (Permutation_sym Hperm)), in_app_or in Hq.
    destruct Hq as [Hq | [<- | Hq]].
    + right. apply frame_lt_same_key; [| congruence].
      apply (StronglySorted_app_1_elem_of _ _ _ q p Hs);
        [now apply list_elem_of_In | apply list_elem_of_here].
    + now left.
    + apply in_app_or in Hq. destruct Hq as [Hq | Hq].
      * rewrite List.Forall_forall in Hb. now apply Hb in Hq.
      * exfalso.
        apply StronglySorted_inv in Hs2 as [Hs3 _].
        apply StronglySorted_app_1_r in Hs3.
        now apply (later_rows_not_earlier r l2 q Hs3 Hq Hqk).
Qed.

Lemma none_earlier (df l1 l2 : list adm) (r : adm) :
  Permutation (l1 ++ r :: l2) df ->
  StronglySorted frame_lt (l1 ++ r :: l2) ->
  Forall (fun q => ident_proxy q <> ident_proxy r) l1 ->
  forall q, ~ earlier_same_key df q r.
Proof.
  intros Hperm Hs Hl1 q (Hq & Hqk & Hqr).
  apply (Permutation_in _ (Permutation_sym Hperm)), in_app_or in Hq.
  destruct Hq as [Hq | Hq].
  - rewrite List.Forall_forall in Hl1. now apply Hl1 in Hq.
  - apply StronglySorted_app_1_r in Hs.
    now apply (later_rows_not_earlier r l2 q Hs Hq Hqk).
Qed.

Lemma within_30d_binary (i : option Z) : within_30d i = 1 \/ within_30d i = 0.
Proof.
  destruct i as [d|]; simpl; [| now right].
  destruct ((0 <=? d) && (d <=? 30)); [now left | now right].
Qed.

Lemma within_30d_one (d : Z) : within_30d (Some d) = 1 <-> 0 <= d <= 30.
Proof.
  simpl. destruct ((0 <=? d) && (d <=? 30)) eqn:E.
  - apply andb_true_iff in E as [H1 H2].
    apply Z.leb_le in H1, H2. split; [lia | reflexivity].
  - split; [discriminate |]. intros [H1 H2].
    apply Z.leb_le in H1, H2. rewrite H1, H2 in E. discriminate.
Qed.

(** The flags, by the key the script groups on. *)
Lemma flag_by_key (df : list adm) :
  labels_increasing df ->
  Permutation (map rec (identify_readmissions df)) df
  /\ forall o, In o (identify_readmissions df) ->
       (readmitido_30d o = 1 \/ readmitido_30d o = 0)
       /\ (readmitido_30d o = 1 <->
           (exists q, earlier_same_key df q (rec o))
           /\ exists p, immediately_precedes df p (rec o)
                  /\ 0 <= (dt_inter (rec o) - dt_saida p) / day_ns <= 30).
Proof.
  intros Hlab.
  pose proof (sort_values_perm df) as Hperm.
  pose proof (sort_values_sorted df Hlab) as Hs.
  split; [now rewrite identify_records |].
  intros o Ho.
  destruct (identify_inv df o Ho) as (l1 & l2 & Heq & Hmark).
  rewrite Heq in Hperm, Hs.
  set (r := rec o) in *.
  destruct (last_same (ident_proxy r) l1) as [p|] eqn:Hlast.
  - apply last_same_Some in Hlast as (a & b & -> & Hk & Hb).
    rewrite <- app_assoc in Hperm, Hs. simpl in Hperm, Hs.
    pose proof (found_precedes df a b l2 p r Hperm Hs Hk Hb) as Hprec.
    rewrite Hmark. simpl. fold (within_30d (Some ((dt_inter r - dt_saida p) / day_ns))).
    split; [apply within_30d_binary |].
    rewrite within_30d_one. split.
    + intros Hd. split; [exists p; apply Hprec | exists p; now split].
    + intros [_ (p' & Hp' & Hd)].
      now rewrite (precedes_unique df p p' r Hprec Hp').
  - apply last_same_None in Hlast.
    pose proof (none_earlier df l1 l2 r Hperm Hs Hlast) as Hnone.
    rewrite Hmark. simpl. split; [now right |].
    split; [discriminate |].
    intros [[q Hq] _]. now apply Hnone in Hq.
Qed.

(** *** The key and the patient *)

Lemma same_patient_key (a b : adm) :
  bar_free a -> bar_free b ->
  (ident_proxy a = ident_proxy b <-> same_patient a b).
Proof.
  intros (Hma & Hna & Hsa) (Hmb & Hnb & Hsb). unfold ident_proxy, same_patient.
  split.
  - intros H.
    apply split_at_bar in H as [Hm H]; [| assumption | assumption].
    apply split_at_bar in H as [Hn H]; [| assumption | assumption].
    apply split_at_bar in H as [Hs Hc]; [| assumption | assumption].
    auto.
  - intros (-> & -> & -> & ->). reflexivity.
Qed.

Lemma key_synthesized (r : adm) : synthesized_key r = ident_proxy r.
Proof. reflexivity. Qed.

(** Whether [r] is a readmission depends on which admissions of the
    frame are the same as [r], and on nothing else of the relation. *)
Lemma readmitted_same (same1 same2 : adm -> adm -> Prop) (df : list adm) (r : adm) :
  (forall p, In p df -> (same1 p r <-> same2 p r)) ->
  (readmitted same1 df r <-> readmitted same2 df r).
Proof.
  intros H.
  assert (He : forall p, earlier same1 df p r <-> earlier same2 df p r).
  { intros p. unfold earlier. split; intros (Hp & Hs & Hb);
      (split; [exact Hp |]); (split; [| exact Hb]); now apply (H p Hp). }
  assert (Hj : forall p, just_before same1 df p r <-> just_before same2 df p r).
  { intros p. unfold just_before. rewrite (He p). split; intros [Hp Hq];
      (split; [exact Hp |]); intros q Hqr; apply Hq; now apply He. }
  unfold readmitted. split.
  - intros [[q Hq] (p & Hp & Hd)]. split.
    + exists q. now apply He.
    + exists p. split; [now apply Hj | exact Hd].
  - intros [[q Hq] (p & Hp & Hd)]. split.
    + exists q. now apply He.
    + exists p. split; [now apply Hj | exact Hd].
Qed.

Lemma flag_by_proxy (df : list adm) (o : flagged) :
  labels_increasing df -> In o (identify_readmissions df) ->
  (readmitido_30d o = 1
   <-> readmitted (fun p r => ident_proxy p = ident_proxy r) df (rec o)).
Proof.
  intros Hlab Ho. destruct (flag_by_key df Hlab) as [_ Hall].
  destruct (Hall o Ho) as [_ Hiff]. exact Hiff.
Qed.

(** C1. In a frame whose index labels increase, the readmission step
    keeps every record once and gives each the flag 1 or 0.  The flag
    of a record r is 1 exactly when an earlier admission with the same
    identity key, the texts of municipality, date of birth, sex and
    CEP joined by '|', exists and the whole days from the discharge of
    the admission of that key just before r (in admission-date order,
    admissions of one instant in frame order) to the admission of r
    are between 0 and 30.  When no text of municipality, date of birth
    or sex holds a '|', the same is true with 'the same key' read as
    'the same municipality, date of birth, sex and CEP'. *)
Theorem readmission_flag_correct (df : list adm) :
  labels_increasing df ->
  Permutation (map rec (identify_readmissions df)) df
  /\ forall o, In o (identify_readmissions df) ->
       (readmitido_30d o = 1 \/ readmitido_30d o = 0)
       /\ (readmitido_30d o = 1 <-> readmitted same_key df (rec o))
       /\ (Forall bar_free df ->
           (readmitido_30d o = 1 <-> readmitted same_patient df (rec o))).
Proof.
  intros Hlab. destruct (flag_by_key df Hlab) as [Hperm Hall].
  split; [exact Hperm |]. intros o Ho.
  destruct (Hall o Ho) as [Hbin _]. split; [exact Hbin |].
  assert (Hr : In (rec o) df).
  { apply (Permutation_in _ Hperm). now apply in_map. }
  rewrite (flag_by_proxy df o Hlab Ho). split.
  - apply readmitted_same. intros p _. unfold same_key.
    rewrite (key_synthesized p), (key_synthesized (rec o)). reflexivity.
  - intros Hbar. rewrite List.Forall_forall in Hbar.
    apply readmitted_same. intros p Hp. apply same_patient_key; auto.
Qed.

(** *** Runs on the sample frames *)

(** Labels, intervals in days and flags, in the order of the sorted
    frame: the stay that begins on day 3, inside the first stay, is
    not a readmission (-2 days) and becomes the stay before that of
    day 20 (16 days); the stay of day 60 comes 35 days after. *)
Example identify_stays :
  map (fun o => (label (rec o), intervalo_dias o, readmitido_30d o))
      (identify_readmissions Samples.stays)
  = [(2%nat, None, 0); (0%nat, None, 0); (4%nat, Some (-2), 0);
     (3%nat, Some 16, 1); (1%nat, Some 35, 0)].
Proof. vm_compute. reflexivity. Qed.

(** Two rows of one key admitted at the same instant: the second in the
    frame counts as a readmission of the first when the first stay ends
    on its day of admission. *)
Example identify_same_day :
  map (fun o => (label (rec o), intervalo_dias o, readmitido_30d o))
      (identify_readmissions Samples.same_day)
  = [(0%nat, None, 0); (1%nat, Some 0, 1)].
Proof. vm_compute. reflexivity. Qed.

(** Whole days are counted downwards: an admission twelve hours before
    the previous discharge is at -1 day, one 30 days and 23 hours after
    it at 30 days. *)
Example interval_floor :
  interval_days (Samples.stay 1 "k" 10 11) (Some (Samples.midnight 10 + day_ns / 2))
  = Some (-1)
  /\ within_30d (interval_days (Samples.stay 1 "k" 40 41)
                   (Some (Samples.midnight 10 - day_ns + 3600000000000)))
     = 1.
Proof. split; vm_compute; reflexivity. Qed.

(** Without the condition on '|' the key does not tell patients apart:
    these two, of different municipalities and CEP, share it, and the
    second admission is flagged as a readmission of the first. *)
Example key_collision_flagged :
  let a := {| label := 0; munic_res := "1"; nasc_str := "2000-01-01";
              sexo := "1.0"; cep_str := "2000-01-01|1.0|9";
              dt_inter := Samples.midnight 0; dt_saida := Samples.midnight 2 |} in
  let b := {| label := 1; munic_res := "1|2000-01-01|1.0"; nasc_str := "2000-01-01";
              sexo := "1.0"; cep_str := "9";
              dt_inter := Samples.midnight 10; dt_saida := Samples.midnight 12 |} in
  ~ same_patient a b
  /\ map (fun o => (label (rec o), readmitido_30d o)) (identify_readmissions [a; b])
     = [(0%nat, 0); (1%nat, 1)].
Proof.
  intros a b. split; [| vm_compute; reflexivity].
  intros (H & _). discriminate H.
Qed.

Lemma no_bar_text (s : string) :
  Str.contains "|" s = false -> ~ Str.occurs "|" s.
Proof.
  intros H Ho. apply StrFacts.contains_occurs in Ho. congruence.
Qed.

Lemma readmission_flag_correct_witness :
  labels_increasing Samples.stays
  /\ Forall bar_free Samples.stays
  /\ Permutation (map rec (identify_readmissions Samples.stays)) Samples.stays
  /\ forall o, In o (identify_readmissions Samples.stays) ->
       (readmitido_30d o = 1 \/ readmitido_30d o = 0)
       /\ (readmitido_30d o = 1 <-> readmitted same_key Samples.stays (rec o))
       /\ (readmitido_30d o = 1 <-> readmitted same_patient Samples.stays (rec o)).
Proof.
  assert (H : labels_increasing Samples.stays).
  { unfold labels_increasing. simpl.
    repeat (constructor; [| repeat constructor; lia]). constructor. }
  assert (B : Forall bar_free Samples.stays).
  { repeat constructor; apply no_bar_text; reflexivity. }
  split; [exact H |]. split; [exact B |].
  destruct (readmission_flag_correct Samples.stays H) as [Hperm Hall].
  split; [exact Hperm |]. intros o Ho.
  destruct (Hall o Ho) as (Hbin & Hkey & Hpat).
  split; [exact Hbin |]. split; [exact Hkey | exact (Hpat B)].
Defined.

End ReadmitFacts.

Module ScriptFacts.
Import Script.

Section RunFacts.

Context {num : Type}.
Variable np_exp : num -> num.
Variable str_float : Clean.float -> string.

(** *** Traces of composed pieces *)

Lemma fst_bind {A B : Type} (m : prog num A) (k : A -> prog num B) :
  fst (bind m k) =
  (fst m ++ match snd m with Some a => fst (k a) | None => [] end).
Proof.
  destruct m as [t [a|]]; simpl.
  - now destruct (k a).
  - now rewrite app_nil_r.
Qed.

Lemma snd_bind {A B : Type} (m : prog num A) (k : A -> prog num B) :
  snd (bind m k) = match snd m with Some a => snd (k a) | None => None end.
Proof.
  destruct m as [t [a|]]; simpl; [| reflexivity].
  now destruct (k a).
Qed.

Lemma within_bind {A B X : Type} (proj : event num -> option X) (L1 L2 : list X)
  (m : prog num A) (k : A -> prog num B) :
  within proj L1 m -> (forall a, within proj L2 (k a)) ->
  within proj (L1 ++ L2) (bind m k).
Proof.
  unfold within. intros H1 H2. rewrite fst_bind, omap_app.
  apply sublist_app; [exact H1 |].
  destruct (snd m) as [a|]; [apply H2 | apply sublist_nil_l].
Qed.

Lemma within_weaken {A X : Type} (proj : event num -> option X) (L L' : list X)
  (m : prog num A) :
  within proj L m -> sublist L L' -> within proj L' m.
Proof. unfold within. intros. etransitivity; eassumption. Qed.

Lemma attempt_within {X : Type} (proj : event num -> option X)
  (steps : list (list (event num))) (i : nat) (f : option fault) :
  sublist (omap proj (fst (attempt steps i f))) (omap proj (concat steps)).
Proof.
  revert i. induction steps as [|s rest IH]; intros i; simpl.
  - constructor.
  - rewrite omap_app.
    assert (Hgo : sublist
              (omap proj (fst (let (t, r) := attempt rest (S i) f in ((s ++ t), r))))
              (omap proj s ++ omap proj (concat rest))).
    { specialize (IH (S i)). destruct (attempt rest (S i) f) as [t r]. simpl in *.
      rewrite omap_app. now apply sublist_app. }
    destruct f as [ft|]; [| exact Hgo].
    destruct (Nat.eqb (at_step ft) i); [| exact Hgo].
    simpl. destruct (effect_done ft).
    + now apply sublist_inserts_r.
    + apply sublist_nil_l.
Qed.

Lemma guarded_within {X : Type} (proj : event num -> option X)
  (steps : list (list (event num))) (f : option fault)
  (handler : string -> list (event num)) :
  (forall msg, omap proj (handler msg) = []) ->
  within proj (omap proj (concat steps)) (guarded steps f handler).
Proof.
  intros Hh. unfold within, guarded.
  pose proof (attempt_within proj steps 0 f) as H.
  destruct (attempt steps 0 f) as [t [msg|]]; simpl in *; [| exact H].
  now rewrite omap_app, Hh, app_nil_r.
Qed.

(** *** File effects of each section *)

Lemma prints_project {X : Type} (proj : event num -> option X)
  (g : string -> string) (l : list string) :
  (forall text, proj (Print text) = None) ->
  omap proj (map (fun c => Print (g c)) l) = [].
Proof.
  intros Hp. induction l as [|c l IH]; simpl; [reflexivity |].
  now rewrite Hp.
Qed.

Lemma load_within {X : Type} (proj : event num -> option X) (e : env num) :
  (forall text, proj (Print text) = None) ->
  (forall path, proj (ReadFile path) = None) ->
  within proj [] (load e).
Proof.
  intros Hp Hr. unfold within, load.
  destruct (first_read e); [| destruct (second_read e) | |];
    simpl; rewrite ?Hr, ?Hp; simpl; rewrite ?Hr, ?Hp; constructor.
Qed.

Lemma crash_within {A X : Type} (proj : event num -> option X) (exn : string) :
  (forall x, proj (Traceback x) = None) ->
  within proj [] (crash (A:=A) exn).
Proof. intros Ht. unfold within, crash. simpl. rewrite Ht. constructor. Qed.

Lemma print_within {X : Type} (proj : event num -> option X) (text : string) :
  (forall text, proj (Print text) = None) ->
  within proj [] (emit (Print text)).
Proof. intros Hp. unfold within, emit. simpl. rewrite Hp. constructor. Qed.

Lemma ret_within {A X : Type} (proj : event num -> option X) (a : A) :
  within proj [] (ret a).
Proof. unfold within. simpl. constructor. Qed.

Lemma exit_within {A X : Type} (proj : event num -> option X) :
  within proj [] (exit (A:=A)).
Proof. unfold within. simpl. constructor. Qed.

Lemma convert_numeric_within {X : Type} (proj : event num -> option X)
  (cols l : list string) :
  (forall text, proj (Print text) = None) ->
  (forall x, proj (Traceback x) = None) ->
  within proj [] (convert_numeric cols l).
Proof.
  intros Hp Ht. induction l as [|col l IH]; cbn [convert_numeric].
  - apply ret_within.
  - apply (within_bind proj [] []); [| intros _; exact IH].
    destruct (has_column cols col); [destruct (ambiguous cols col) |].
    + now apply crash_within.
    + apply ret_within.
    + now apply print_within.
Qed.

Lemma convert_dates_within {X : Type} (proj : event num -> option X)
  (cols l : list string) :
  (forall text, proj (Print text) = None) ->
  (forall x, proj (Traceback x) = None) ->
  within proj [] (convert_dates cols l).
Proof.
  intros Hp Ht. induction l as [|col l IH]; cbn [convert_dates].
  - apply ret_within.
  - apply (within_bind proj [] []); [| intros _; exact IH].
    destruct (has_column cols col); [destruct (ambiguous cols col) |].
    + apply (within_bind proj [] []); [now apply print_within |].
      intros _. now apply crash_within.
    + apply ret_within.
    + now apply print_within.
Qed.

Lemma make_cep_str_within {X : Type} (proj : event num -> option X)
  (cols : list string) :
  (forall text, proj (Print text) = None) ->
  (forall x, proj (Traceback x) = None) ->
  within proj [] (make_cep_str cols).
Proof.
  intros Hp Ht. unfold make_cep_str.
  destruct (has_column cols "cep"); [destruct (ambiguous cols "cep") |].
  - now apply crash_within.
  - apply ret_within.
  - apply (within_bind proj [] []); [now apply print_within |].
    intros _. apply exit_within.
Qed.

Lemma prepare_within {X : Type} (proj : event num -> option X) (fr : frame) :
  (forall text, proj (Print text) = None) ->
  (forall x, proj (Traceback x) = None) ->
  within proj [] (prepare fr).
Proof.
  intros Hp Ht. unfold prepare.
  apply (within_bind proj [] []); [now apply convert_numeric_within |].
  intros _. apply (within_bind proj [] []); [now apply convert_dates_within |].
  intros _. apply (within_bind proj [] []); [now apply make_cep_str_within |].
  intros cols.
  destruct (List.filter _ cols_to_check_na) as [|c missing].
  - apply (within_bind proj [] []).
    + destruct (100 <? _); [now apply print_within | apply ret_within].
    + intros _. apply ret_within.
  - apply (within_bind proj [] []); [now apply print_within |].
    intros _. apply exit_within.
Qed.

Lemma prepared_within {X : Type} (proj : event num -> option X) (e : env num) :
  (forall text, proj (Print text) = None) ->
  (forall path, proj (ReadFile path) = None) ->
  (forall x, proj (Traceback x) = None) ->
  within proj (omap proj (fst (setup e))) (prepared e).
Proof.
  intros Hp Hr Ht. unfold prepared.
  rewrite <- (app_nil_r (omap proj (fst (setup e)))).
  apply within_bind; [unfold within; reflexivity |].
  intros _. apply (within_bind proj [] []); [now apply load_within |].
  intros fr. now apply prepare_within.
Qed.

Lemma cleaned_within {X : Type} (proj : event num -> option X) (e : env num) :
  (forall text, proj (Print text) = None) ->
  (forall path, proj (ReadFile path) = None) ->
  (forall x, proj (Traceback x) = None) ->
  within proj (omap proj (fst (setup e))) (cleaned str_float e).
Proof.
  intros Hp Hr Ht. unfold cleaned.
  rewrite <- (app_nil_r (omap proj (fst (setup e)))).
  apply within_bind; [now apply prepared_within |].
  intros df. apply ret_within.
Qed.


Lemma section4_within {X : Type} (proj : event num -> option X) (e : env num)
  (df : list Readmit.adm) :
  (forall text, proj (Print text) = None) ->
  within proj [] (section4 e df).
Proof.
  intros Hp. unfold within, section4.
  destruct (readmission_fault e) as [[stmt msg]|]; simpl; rewrite ?Hp; constructor.
Qed.

Lemma section7_within {X : Type} (proj : event num -> option X) (e : env num)
  (df : list Clean.row) :
  (forall text, proj (Print text) = None) ->
  within proj [] (section7 e df).
Proof.
  intros Hp. unfold within, section7.
  destruct (fit_transform df); [| destruct (transform_fault e)];
    simpl; rewrite ?Hp; constructor.
Qed.

Lemma section8_within {X : Type} (proj : event num -> option X) (e : env num) :
  (forall text, proj (Print text) = None) ->
  within proj
    (omap proj [out_file tabela2 (OddsRatios (odds_ratios np_exp (fitted e)))])
    (section8 np_exp e).
Proof.
  intros Hp. unfold within, section8.
  match goal with
  | |- context [attempt ?steps 0 ?f] =>
      pose proof (attempt_within proj steps 0 f) as H;
      destruct (attempt steps 0 f) as [t [msg|]]
  end; simpl in *; [| exact H].
  rewrite omap_app. simpl. rewrite Hp. simpl. now rewrite app_nil_r.
Qed.

Lemma section9_within {X : Type} (proj : event num -> option X) (e : env num)
  (t : option (list (string * list num))) :
  (forall text, proj (Print text) = None) ->
  within proj (omap proj [out_file figura3_png Image; out_file figura3_tiff Image])
    (section9 e t).
Proof.
  intros Hp. unfold section9. destruct t as [t|].
  - apply (guarded_within proj). intros msg. simpl. now rewrite Hp.
  - unfold within. simpl. rewrite Hp. apply sublist_nil_l.
Qed.

Lemma section6_within {X : Type} (proj : event num -> option X) (e : env num)
  (df : list (Readmit.adm * Z)) :
  (forall text, proj (Print text) = None) ->
  within proj
    (omap proj [out_file figura1_png Image; out_file figura1_tiff Image;
                out_file figura2_png Image; out_file figura2_tiff Image])
    (section6 e df).
Proof.
  intros Hp. unfold section6.
  eapply within_weaken.
  - apply (guarded_within proj). intros msg. simpl. now rewrite Hp.
  - change [out_file figura1_png Image; out_file figura1_tiff Image;
            out_file figura2_png Image; out_file figura2_tiff Image]
      with ([out_file (num:=num) figura1_png Image; out_file figura1_tiff Image]
            ++ [out_file figura2_png Image; out_file figura2_tiff Image]).
    destruct df as [|x df]; [| reflexivity].
    match goal with
    | |- sublist (omap proj (concat ?steps)) _ =>
        change (concat steps)
          with ([out_file (num:=num) figura1_png Image; out_file figura1_tiff Image]
                ++ [Print "Aviso: Não foi possível gerar a Figura 2 (Readmissão x Procedimento)."])
    end.
    rewrite !omap_app. apply sublist_app; [reflexivity |].
    simpl. rewrite Hp. apply sublist_nil_l.
Qed.

Lemma section3_within {X : Type} (proj : event num -> option X) (e : env num)
  (df : list Clean.row) :
  (forall text, proj (Print text) = None) ->
  within proj (omap proj [out_file tabela1 Table]) (section3 e df).
Proof.
  intros Hp. unfold section3.
  apply (guarded_within proj). intros msg. simpl. now rewrite Hp.
Qed.

Lemma run_within {X : Type} (proj : event num -> option X) (e : env num) :
  (forall text, proj (Print text) = None) ->
  (forall path, proj (ReadFile path) = None) ->
  (forall x, proj (Traceback x) = None) ->
  within proj (omap proj (all_effects np_exp e)) (run np_exp str_float e).
Proof.
  intros Hp Hr Ht. unfold run, analysis, all_effects. rewrite !omap_app.
  apply within_bind; [now apply prepared_within |].
  intros df. apply within_bind; [now apply section3_within |].
  intros _. apply (within_bind proj []); [now apply section4_within |].
  intros df4. apply within_bind; [unfold within; reflexivity |].
  intros _. apply within_bind; [now apply section6_within |].
  intros _. apply (within_bind proj []); [now apply section7_within |].
  intros _. apply within_bind; [now apply section8_within |].
  intros t.
  rewrite <- (app_nil_r (omap proj [out_file figura3_png Image; _])).
  apply within_bind; [now apply section9_within |].
  intros _. unfold within. simpl. constructor.
Qed.

(** *** The run as a whole *)

Lemma written_all_effects (e : env num) :
  written (all_effects np_exp e) = map (path_join output_dir) output_names.
Proof. unfold all_effects, setup. now destruct (dir_exists e). Qed.

Lemma created_all_effects (e : env num) :
  created (all_effects np_exp e) = if dir_exists e then [] else [output_dir].
Proof. unfold all_effects, setup. now destruct (dir_exists e). Qed.

Lemma output_paths_distinct : NoDup (map (path_join output_dir) output_names).
Proof. apply (bool_decide_unpack _). vm_compute. reflexivity. Qed.

Lemma input_not_output : ~ In input_csv (map (path_join output_dir) output_names).
Proof.
  rewrite <- list_elem_of_In. apply (bool_decide_unpack _). vm_compute. reflexivity.
Qed.

Lemma prefix_projected {X : Type} (proj : event num -> option X)
  (e : env num) (t rest : list (event num)) :
  (forall text, proj (Print text) = None) ->
  (forall path, proj (ReadFile path) = None) ->
  (forall x, proj (Traceback x) = None) ->
  trace (run np_exp str_float e) = t ++ rest ->
  sublist (omap proj t) (omap proj (all_effects np_exp e)).
Proof.
  intros Hp Hr Hx Ht. pose proof (run_within proj e Hp Hr Hx) as H.
  unfold within in H. unfold trace in Ht. rewrite Ht, omap_app in H.
  etransitivity; [| exact H]. apply sublist_inserts_r. reflexivity.
Qed.

Lemma run_starts_with_setup (e : env num) :
  exists t', trace (run np_exp str_float e) = fst (setup e) ++ t'.
Proof.
  unfold trace, run, prepared. rewrite !fst_bind, <- !app_assoc. eauto.
Qed.

(** C7. In every run, and up to any point of it, a file is written only
    under a name of the script inside ResultadosAnalise_ArtigoRESS, no
    path is written twice, the input CSV file is neither written nor
    created, the only directory ever created is the output directory,
    and only when it was absent; when it is absent, creating it is the
    first thing the run does. *)
Theorem output_frame (e : env num) (t rest : list (event num)) :
  trace (run np_exp str_float e) = t ++ rest ->
  (forall p, In p (written t) ->
     exists name, In name output_names /\ p = path_join output_dir name)
  /\ NoDup (written t)
  /\ ~ In input_csv (written t)
  /\ ~ In input_csv (created t)
  /\ (forall d, In d (created t) -> d = output_dir /\ dir_exists e = false)
  /\ (dir_exists e = false ->
      exists t', trace (run np_exp str_float e) = MakeDirs output_dir :: t').
Proof.
  intros Ht.
  pose proof (prefix_projected write_path e t rest
                (fun _ => eq_refl) (fun _ => eq_refl) (fun _ => eq_refl) Ht) as Hw.
  pose proof (prefix_projected made_dir e t rest
                (fun _ => eq_refl) (fun _ => eq_refl) (fun _ => eq_refl) Ht) as Hc.
  fold (written t) in Hw. fold (created t) in Hc.
  fold (written (all_effects np_exp e)) in Hw.
  fold (created (all_effects np_exp e)) in Hc.
  rewrite written_all_effects in Hw. rewrite created_all_effects in Hc.
  assert (Hin : forall p, In p (written t) ->
                          In p (map (path_join output_dir) output_names)).
  { intros p Hp. apply list_elem_of_In. eapply elem_of_sublist; [| exact Hw].
    now apply list_elem_of_In. }
  assert (Hdir : forall d, In d (created t) -> d = output_dir /\ dir_exists e = false).
  { intros d Hd. apply list_elem_of_In in Hd.
    pose proof (elem_of_sublist _ _ _ Hd Hc) as Hd'.
    destruct (dir_exists e).
    - now apply elem_of_nil in Hd'.
    - apply list_elem_of_singleton in Hd'. auto. }
  split; [| split; [| split; [| split; [| split]]]].
  - intros p Hp. apply Hin, in_map_iff in Hp as (name & <- & Hname). eauto.
  - eapply sublist_NoDup; [exact output_paths_distinct | exact Hw].
  - intros H. now apply Hin, input_not_output in H.
  - intros H. apply Hdir in H as [H _]. discriminate H.
  - exact Hdir.
  - intros Habsent. destruct (run_starts_with_setup e) as [t' Ht'].
    unfold setup in Ht'. rewrite Habsent in Ht'. exists t'. exact Ht'.
Qed.

(** *** Section 4 when it raises *)

Lemma guarded_goes_on (steps : list (list (event num))) (f : option fault)
  (handler : string -> list (event num)) :
  exists b, snd (guarded steps f handler) = Some b.
Proof.
  unfold guarded. destruct (attempt steps 0 f) as [t [msg|]]; simpl; eauto.
Qed.



Lemma section3_goes_on (e : env num) (df : list Clean.row) :
  exists b, snd (section3 e df) = Some b.
Proof. unfold section3. apply guarded_goes_on. Qed.


(** *** The odds-ratio table *)

Lemma section4_goes_on (e : env num) (df : list Readmit.adm) :
  exists out, snd (section4 e df) = Some out.
Proof.
  unfold section4. destruct (readmission_fault e) as [[stmt msg]|]; simpl; eauto.
Qed.

Lemma odds_ratios_columns (m : fit num) :
  column "OR" (odds_ratios np_exp m) = Some (map np_exp (params m))
  /\ column "CI_lower" (odds_ratios np_exp m) = Some (map np_exp (conf_lower m))
  /\ column "CI_upper" (odds_ratios np_exp m) = Some (map np_exp (conf_upper m)).
Proof. repeat split. Qed.

Lemma section6_goes_on (e : env num) (df : list (Readmit.adm * Z)) :
  exists b, snd (section6 e df) = Some b.
Proof. unfold section6. apply guarded_goes_on. Qed.

(** Line 325 asks the accessor for an attribute it does not have. *)
Lemma relevel_missing :
  cat_getattr "relevel"
  = Some "'CategoricalAccessor' object has no attribute 'relevel'".
Proof. reflexivity. Qed.

(** The regression block never gets past line 325: it ends in its
    handler, has written nothing, and leaves [odds_ratios_df] at
    None. *)
Lemma section8_raises (e : env num) :
  exists msg,
    section8 np_exp e
    = ([Print ("Erro ao executar a regressão logística: " +:+ msg)], Some None).
Proof.
  unfold section8. rewrite relevel_missing. cbn [fmap option_fmap option_map].
  destruct (regression_fault e) as [ft|]; cbn [earliest at_step].
  - destruct (at_step ft) as [|n] eqn:E.
    + cbn [Nat.ltb Nat.leb attempt]. rewrite E. cbn [Nat.eqb].
      exists (message ft). now destruct (effect_done ft).
    + cbn [Nat.ltb Nat.leb]. destruct n; cbn [Nat.leb attempt at_step Nat.eqb effect_done message];
        eexists; reflexivity.
  - cbn [attempt at_step Nat.eqb effect_done message]. eexists; reflexivity.
Qed.

Lemma section9_skipped (e : env num) :
  section9 e None
  = ([Print "Aviso: Regressão logística falhou ou não foi executada. Figura 3 não gerada."],
     Some false).
Proof. reflexivity. Qed.

(** *** The frame that reaches section 4 *)

Lemma sorted_sublist {A : Type} (R : A -> A -> Prop) (l k : list A) :
  sublist l k -> StronglySorted R k -> StronglySorted R l.
Proof.
  induction 1 as [|x l k Hs IH|x l k Hs IH]; intros Hk.
  - constructor.
  - apply StronglySorted_inv in Hk as [Hk Hx].
    constructor; [now apply IH |].
    apply List.Forall_forall. intros y Hy.
    rewrite List.Forall_forall in Hx. apply Hx.
    apply list_elem_of_In. eapply elem_of_sublist; [| exact Hs].
    now apply list_elem_of_In.
  - apply StronglySorted_inv in Hk as [Hk _]. now apply IH.
Qed.

Lemma admission_label (r : Clean.row) (a : Readmit.adm) :
  admission str_float r = Some a -> Readmit.label a = Clean.label r.
Proof.
  unfold admission. intros H.
  destruct (Clean.munic_res r), (Clean.nasc r), (Clean.cep_str r),
    (Clean.dt_inter r), (Clean.dt_saida r); try discriminate.
  now injection H as <-.
Qed.

Lemma admissions_labels (l : list Clean.row) :
  sublist (map Readmit.label (omap (admission str_float) l)) (map Clean.label l).
Proof.
  induction l as [|r l IH]; simpl; [constructor |].
  destruct (admission str_float r) as [a|] eqn:E; simpl.
  - rewrite (admission_label r a E). now constructor.
  - now constructor.
Qed.

Lemma map_sublist {A B : Type} (f : A -> B) (l k : list A) :
  sublist l k -> sublist (map f l) (map f k).
Proof. induction 1; simpl; now constructor. Qed.

(** The rows of a frame that [read_csv] has numbered upwards reach
    section 4 with increasing labels. *)
Lemma cleaned_labels_increasing (l : list Clean.row) :
  StronglySorted lt (map Clean.label l) ->
  Readmit.labels_increasing (omap (admission str_float) (Clean.clean l)).
Proof.
  intros H. unfold Readmit.labels_increasing.
  eapply sorted_sublist; [| exact H].
  etransitivity; [apply admissions_labels |].
  apply map_sublist, CleanFacts.clean_sublist.
Qed.

(** Every row of the cleaned frame is an admission: none is lost on the
    way to section 4. *)
Lemma cleaned_rows_are_admissions (l : list Clean.row) (r : Clean.row) :
  In r (Clean.clean l) -> exists a, admission str_float r = Some a.
Proof.
  intros H. apply CleanFacts.clean_In in H as [_ [Hp _]].
  destruct Hp as (_ & _ & _ & _ & Hn & Hi & Ho & Hc & Hm & _).
  unfold admission.
  destruct (Clean.munic_res r), (Clean.nasc r), (Clean.cep_str r),
    (Clean.dt_inter r), (Clean.dt_saida r); try congruence.
  eauto.
Qed.

End RunFacts.

(** *** Runs on the sample frames *)

Example strftime_samples :
  strftime_ymd 0 = "1970-01-01"
  /\ strftime_ymd (Samples.midnight 11016) = "2000-02-29"
  /\ strftime_ymd (Samples.midnight 19722 + 5) = "2023-12-31"
  /\ strftime_ymd (Samples.midnight (-3516)) = "1960-05-17".
Proof. repeat split; vm_compute; reflexivity. Qed.

Example quiet_run_writes :
  written (trace (run exp str_whole Samples.quiet_run))
  = map (path_join output_dir)
      [tabela1; contagem; figura1_png; figura1_tiff; figura2_png; figura2_tiff].
Proof. reflexivity. Qed.

Example missing_file_exits :
  run exp str_whole
    (mk_env R true FileNotFoundError (RetryError "unused") None None None None None
       Samples.one_coefficient None)
  = ([ReadFile input_csv;
      Print "Erro fatal: Arquivo 'SIH_ArtriteSeptica_BrasilUFporUF_filtered61225.csv' não encontrado."],
     None).
Proof. reflexivity. Qed.

(** A file without the column CEP: the script leaves before it has
    written anything. *)
Example missing_cep_exits :
  run exp str_whole
    (mk_env R true
       (ReadFrame (mk_frame ["idade"; "sexo"; "nasc"] Samples.loaded))
       (RetryError "unused") None None None None None Samples.one_coefficient None)
  = ([ReadFile input_csv;
      Print "Aviso: Coluna numérica esperada 'dias_perm' não encontrada.";
      Print "Aviso: Coluna numérica esperada 'morte' não encontrada.";
      Print "Aviso: Coluna de data esperada 'dt_inter' não encontrada.";
      Print "Aviso: Coluna de data esperada 'dt_saida' não encontrada.";
      Print "Erro Crítico: Coluna 'CEP' não encontrada, necessária para identificação de readmissão."],
     None).
Proof. reflexivity. Qed.

(** A file read at the second attempt, with no row that survives the
    filter: the second figure is not drawn, and the script leaves in
    section 7, where the scaler refuses a frame of no row. *)
Example empty_frame_exits :
  let r := run exp str_whole
    (mk_env R true UnicodeDecodeError
       (RetryFrame (mk_frame Samples.all_columns [Samples.row_minor]))
       None None None None None Samples.one_coefficient None) in
  written (trace r)
  = map (path_join output_dir) [tabela1; contagem; figura1_png; figura1_tiff]
  /\ last (trace r)
     = Some (Print "Erro na transformação de variáveis: Found array with 0 sample(s) (shape=(0, 1)) while a minimum of 1 is required by StandardScaler.")
  /\ snd r = None.
Proof. repeat split. Qed.

(** A file with the columns IDADE and idade: after the renaming two
    columns are named idade, and line 112 raises outside any [try]. *)
Example two_ages_crash :
  run exp str_whole
    (mk_env R true
       (ReadFrame (mk_frame ("idade" :: Samples.all_columns) Samples.loaded))
       (RetryError "unused") None None None None None Samples.one_coefficient None)
  = ([ReadFile input_csv; Traceback "TypeError"], None).
Proof. reflexivity. Qed.

(** Two columns named dt_saida: the warning of line 124, then the
    exception of line 125. *)
Example two_exits_crash :
  run exp str_whole
    (mk_env R true
       (ReadFrame (mk_frame ("dt_saida" :: Samples.all_columns) Samples.loaded))
       (RetryError "unused") None None None None None Samples.one_coefficient None)
  = ([ReadFile input_csv;
      Print "Aviso: Falha ao converter 'dt_saida' com formato YYYYMMDD, tentando inferir.";
      Traceback "ValueError"], None).
Proof. reflexivity. Qed.

(** The frame handed on when the shift raises: sorted already, all
    flags 0. *)
Example failed_sort_frame :
  snd (section4 Samples.failed_sort_run Samples.stays)
  = Some (map (fun r => (r, 0)) (Readmit.sort_values Samples.stays))
  /\ map Readmit.label (Readmit.sort_values Samples.stays)
     = [2; 0; 4; 3; 1]%nat.
Proof. split; reflexivity. Qed.


Lemma output_frame_witness :
  let t := trace (run exp str_whole Samples.failed_fit_run) in
  t = t ++ []
  /\ ((forall p, In p (written t) ->
         exists name, In name output_names /\ p = path_join output_dir name)
      /\ NoDup (written t)
      /\ ~ In input_csv (written t)
      /\ ~ In input_csv (created t)
      /\ (forall d, In d (created t) ->
            d = output_dir /\ dir_exists Samples.failed_fit_run = false)
      /\ (dir_exists Samples.failed_fit_run = false ->
          exists t', t = MakeDirs output_dir :: t')).
Proof.
  intros t.
  assert (H : t = t ++ []) by (symmetry; apply app_nil_r).
  split; [exact H |].
  exact (output_frame exp str_whole Samples.failed_fit_run t [] H).
Defined.

(** C2. The script means to fit the regression and to write the table
    of odds ratios, and does neither: in this run the cleaned dataset
    has three records and no library raises anything, yet line 325
    raises AttributeError, the handler of the block prints it, no
    Tabela2_Regressao_Logistica_Readmissao.csv is written, and the run
    goes on to its end. *)
Theorem relevel_stops_regression :
  (exists t0 df, cleaned str_whole Samples.quiet_run = (t0, Some df)
                 /\ length df = 3%nat)
  /\ regression_fault Samples.quiet_run = None
  /\ section8 exp Samples.quiet_run
     = ([Print "Erro ao executar a regressão logística: 'CategoricalAccessor' object has no attribute 'relevel'"],
        Some None)
  /\ written (trace (run exp str_whole Samples.quiet_run))
     = map (path_join output_dir)
         [tabela1; contagem; figura1_png; figura1_tiff; figura2_png; figura2_tiff]
  /\ snd (run exp str_whole Samples.quiet_run) = Some tt.
Proof.
  split; [eexists _, _; split; reflexivity |].
  repeat split.
Qed.

End ScriptFacts.

(** * Further properties of section 4 *)

Module RatesFacts.
Import Readmit Rates ReadmitFacts.

(** *** How many rows can be flagged *)

Lemma count_some_none {A : Type} (l : list (option A)) :
  (count_some l + count_none l = length l)%nat.
Proof.
  unfold count_some, count_none.
  induction l as [|[a|] l IH]; simpl; lia.
Qed.

Lemma flags_at_most_some (l : list adm) (prevs : list (option Z)) :
  num_readmissoes (zip_with mark l prevs) <= Z.of_nat (count_some prevs).
Proof.
  revert prevs. unfold count_some.
  induction l as [|r l IH]; intros [|p prevs]; simpl; try lia.
  specialize (IH prevs).
  destruct p as [d|]; simpl.
  - destruct ((0 <=? (dt_inter r - d) / day_ns) && ((dt_inter r - d) / day_ns <=? 30));
      lia.
  - lia.
Qed.

Lemma flags_nonneg (l : list flagged) :
  Forall (fun o => readmitido_30d o = 1 \/ readmitido_30d o = 0) l ->
  0 <= num_readmissoes l.
Proof.
  induction 1 as [|o l Ho _ IH]; simpl; [lia |]. destruct Ho; lia.
Qed.

(** The rows [group_shift] leaves without a previous exit are the first
    rows of the keys the table does not hold yet. *)
Lemma group_shift_first_rows (l : list adm) (last : gmap string Z) :
  count_none (group_shift last l) = size (keys l ∖ dom last).
Proof.
  revert last. unfold keys.
  induction l as [|r l IH]; intros last.
  - simpl. replace (∅ ∖ dom last) with (∅ : gset string) by set_solver.
    now rewrite size_empty.
  - simpl group_shift. simpl map. simpl list_to_set.
    unfold count_none in *. simpl List.filter.
    specialize (IH (<[ident_proxy r := dt_saida r]> last)).
    rewrite dom_insert_L in IH.
    destruct (last !! ident_proxy r) as [d|] eqn:E.
    + rewrite IH. f_equal.
      assert (ident_proxy r ∈ dom last) by (apply elem_of_dom; eauto).
      set_solver.
    + simpl length. rewrite IH.
      assert (Hk : ident_proxy r ∉ dom last) by (now apply not_elem_of_dom).
      replace (({[ident_proxy r]} ∪ list_to_set (map ident_proxy l)) ∖ dom last)
        with ({[ident_proxy r]}
              ∪ (list_to_set (map ident_proxy l)
                 ∖ ({[ident_proxy r]} ∪ dom last)) : gset string).
      * assert (Hd : ({[ident_proxy r]} : gset string)
                     ## list_to_set (map ident_proxy l)
                        ∖ ({[ident_proxy r]} ∪ dom last)) by set_solver.
        rewrite (size_union _ _ Hd), size_singleton. reflexivity.
      * apply set_eq. intros k.
        destruct (decide (k = ident_proxy r)) as [-> | Hne]; set_solver.
Qed.

Lemma keys_perm (l k : list adm) : Permutation l k -> keys l = keys k.
Proof.
  intros H. unfold keys. apply set_eq. intros x.
  rewrite !elem_of_list_to_set, !list_elem_of_In.
  split; apply Permutation_in; [| symmetry]; now apply Permutation_map.
Qed.

(** X4. The first admission of every identity key is never flagged: the
    number of readmissions plus the number of different keys is at most
    the number of rows.  So on a frame that is not empty the readmission
    count stays below the number of rows: the rate is never 100%. *)
Theorem readmissions_bounded (df : list adm) :
  num_readmissoes (identify_readmissions df) + Z.of_nat (size (keys df))
  <= Z.of_nat (length df)
  /\ (df <> [] -> num_readmissoes (identify_readmissions df) < Z.of_nat (length df)).
Proof.
  assert (H : num_readmissoes (identify_readmissions df) + Z.of_nat (size (keys df))
              <= Z.of_nat (length df)).
  { unfold identify_readmissions.
    pose proof (flags_at_most_some (sort_values df) (group_shift ∅ (sort_values df)))
      as Hf.
    pose proof (count_some_none (group_shift ∅ (sort_values df))) as Hc.
    rewrite group_shift_first_rows, group_shift_length in Hc.
    rewrite dom_empty_L, difference_empty_L in Hc.
    rewrite (keys_perm _ _ (sort_values_perm df)) in Hc.
    rewrite (Permutation_length (sort_values_perm df)) in Hc.
    lia. }
  split; [exact H |].
  intros Hne. destruct df as [|r df]; [congruence |].
  assert (size (keys (r :: df)) <> 0%nat).
  { apply size_non_empty_iff. unfold keys. simpl. set_solver. }
  lia.
Qed.

(** *** The order of the frame after the sort *)

Lemma frame_lt_asym (a b : adm) : frame_lt a b -> frame_lt b a -> False.
Proof.
  intros [Hab | [Eab Bab]] [Hba | [Eba Bba]].
  - apply (key_lt_irrefl (ident_proxy a)).
    eapply String_as_OT.lt_trans; eassumption.
  - rewrite Eba in Hab. now apply key_lt_irrefl in Hab.
  - rewrite Eab in Hba. now apply key_lt_irrefl in Hba.
  - now apply admitted_before_asym in Bab.
Qed.

(** X5. On a frame whose index labels increase, the frame section 4
    leaves behind holds the same rows, ordered by identity key, then by
    instant of admission, rows of one key and instant in the order of
    the file; and it is the only arrangement of the rows ordered so,
    whatever stable sorting method produces it. *)
Theorem sorted_frame_unique (df : list adm) :
  labels_increasing df ->
  Permutation (map rec (identify_readmissions df)) df
  /\ StronglySorted frame_lt (map rec (identify_readmissions df))
  /\ forall l, Permutation l df -> StronglySorted frame_lt l ->
               l = map rec (identify_readmissions df).
Proof.
  intros Hlab. rewrite identify_records.
  pose proof (sort_values_perm df) as Hp.
  pose proof (sort_values_sorted df Hlab) as Hs.
  split; [exact Hp |]. split; [exact Hs |].
  intros l Hl Hsl.
  apply (StronglySorted_unique_strong frame_lt); [| assumption | assumption |].
  - intros x1 x2 _ _ H1 H2. destruct (frame_lt_asym x1 x2 H1 H2).
  - now rewrite Hp.
Qed.

Lemma sorted_frame_unique_witness :
  labels_increasing Samples.stays
  /\ (Permutation (map rec (identify_readmissions Samples.stays)) Samples.stays
      /\ StronglySorted frame_lt (map rec (identify_readmissions Samples.stays))
      /\ forall l, Permutation l Samples.stays -> StronglySorted frame_lt l ->
                   l = map rec (identify_readmissions Samples.stays)).
Proof.
  assert (H : labels_increasing Samples.stays).
  { unfold labels_increasing. simpl.
    repeat (constructor; [| repeat constructor; lia]). constructor. }
  split; [exact H | exact (sorted_frame_unique Samples.stays H)].
Defined.

(** *** Sorting what is sorted *)

Lemma compare_refl (k : string) : String.compare k k = Eq.
Proof. now apply String_as_OT.cmp_eq. Qed.

Lemma sort_le_total (x y : adm) : sort_le x y = false -> sort_le y x = true.
Proof.
  unfold sort_le. intros H.
  destruct (String.compare (ident_proxy x) (ident_proxy y)) eqn:E;
    rewrite (String.compare_antisym (ident_proxy y) (ident_proxy x)), E; simpl;
    [| discriminate | reflexivity].
  apply Z.leb_gt in H. apply Z.leb_le. lia.
Qed.

Lemma sort_le_trans (a b c : adm) :
  sorts_before a b -> sorts_before b c -> sorts_before a c.
Proof.
  unfold sorts_before, sort_le. intros Hab Hbc.
  destruct (String.compare (ident_proxy a) (ident_proxy b)) eqn:Eab;
    [| | discriminate];
    destruct (String.compare (ident_proxy b) (ident_proxy c)) eqn:Ebc;
    try discriminate.
  - apply String_as_OT.cmp_eq in Eab, Ebc. rewrite Eab, Ebc, compare_refl.
    apply Z.leb_le in Hab, Hbc. apply Z.leb_le. lia.
  - apply String_as_OT.cmp_eq in Eab. now rewrite Eab, Ebc.
  - apply String_as_OT.cmp_eq in Ebc. now rewrite <- Ebc, Eab.
  - apply String_as_OT.cmp_lt in Eab, Ebc.
    pose proof (String_as_OT.lt_trans _ _ _ Eab Ebc) as Hac.
    apply String_as_OT.cmp_lt in Hac. unfold String_as_OT.cmp in Hac.
    now rewrite Hac.
Qed.

Lemma insert_row_keeps_order (x : adm) (l : list adm) :
  StronglySorted sorts_before l -> StronglySorted sorts_before (insert_row x l).
Proof.
  induction l as [|y t IH]; simpl; intros Hs.
  - repeat constructor.
  - apply StronglySorted_inv in Hs as [Hst Hy].
    destruct (sort_le x y) eqn:E.
    + constructor; [now constructor |].
      constructor; [exact E |].
      eapply Forall_impl; [exact Hy |].
      intros z Hz. eapply sort_le_trans; eassumption.
    + constructor; [now apply IH |].
      apply List.Forall_forall. intros z Hz.
      apply (Permutation_in _ (insert_row_perm x t)) in Hz.
      destruct Hz as [<- | Hz].
      * now apply sort_le_total.
      * rewrite List.Forall_forall in Hy. now apply Hy.
Qed.

Lemma sort_values_in_order (df : list adm) :
  StronglySorted sorts_before (sort_values df).
Proof.
  induction df as [|x t IH]; simpl; [constructor |].
  now apply insert_row_keeps_order.
Qed.

Lemma sort_values_fixed (l : list adm) :
  StronglySorted sorts_before l -> sort_values l = l.
Proof.
  induction l as [|x t IH]; intros Hs; [reflexivity |].
  apply StronglySorted_inv in Hs as [Ht Hx].
  simpl. rewrite (IH Ht).
  destruct t as [|y t]; [reflexivity |].
  apply Forall_cons_1 in Hx as [Hxy _]. simpl.
  unfold sorts_before in Hxy. now rewrite Hxy.
Qed.

(** X6. Running the readmission step on the frame it has produced
    changes nothing: the sort leaves a sorted frame as it is, whatever
    the index labels, and every row gets the previous exit, the
    interval and the flag it had. *)
Theorem identify_readmissions_idempotent (df : list adm) :
  sort_values (sort_values df) = sort_values df
  /\ identify_readmissions (map rec (identify_readmissions df))
     = identify_readmissions df.
Proof.
  assert (H : sort_values (sort_values df) = sort_values df)
    by apply sort_values_fixed, sort_values_in_order.
  split; [exact H |].
  rewrite identify_records. unfold identify_readmissions. now rewrite H.
Qed.

(** *** Shifted clocks *)

Lemma sort_le_shift (c : Z) (a b : adm) :
  sort_le (shift_adm c a) (shift_adm c b) = sort_le a b.
Proof.
  unfold sort_le. change (ident_proxy (shift_adm c a)) with (ident_proxy a).
  change (ident_proxy (shift_adm c b)) with (ident_proxy b).
  destruct (String.compare (ident_proxy a) (ident_proxy b)); try reflexivity.
  simpl. destruct (Z.leb_spec (dt_inter a) (dt_inter b));
    [apply Z.leb_le | apply Z.leb_gt]; lia.
Qed.

Lemma insert_row_shift (c : Z) (x : adm) (l : list adm) :
  insert_row (shift_adm c x) (map (shift_adm c) l)
  = map (shift_adm c) (insert_row x l).
Proof.
  induction l as [|y t IH]; simpl; [reflexivity |].
  rewrite sort_le_shift. destruct (sort_le x y); simpl; [reflexivity |].
  now rewrite IH.
Qed.

Lemma sort_values_shift (c : Z) (df : list adm) :
  sort_values (map (shift_adm c) df) = map (shift_adm c) (sort_values df).
Proof.
  induction df as [|x t IH]; simpl; [reflexivity |].
  now rewrite IH, insert_row_shift.
Qed.

Lemma group_shift_shift (c : Z) (l : list adm) (last : gmap string Z) :
  group_shift ((fun d => d + c) <$> last) (map (shift_adm c) l)
  = map (fmap (fun d => d + c)) (group_shift last l).
Proof.
  revert last. induction l as [|r t IH]; intros last; simpl; [reflexivity |].
  change (ident_proxy (shift_adm c r)) with (ident_proxy r).
  rewrite lookup_fmap. f_equal.
  rewrite <- IH. f_equal. now rewrite fmap_insert.
Qed.

Lemma mark_shift (c : Z) (r : adm) (prev : option Z) :
  mark (shift_adm c r) ((fun d => d + c) <$> prev) = shift_flagged c (mark r prev).
Proof.
  destruct prev as [d|]; unfold mark, shift_flagged; simpl; [| reflexivity].
  replace (dt_inter r + c - (d + c)) with (dt_inter r - d) by lia.
  reflexivity.
Qed.

(** X7. The flags do not depend on where the clock starts: when every
    admission and discharge of the frame is moved by the same lapse of
    time, the rows come out in the same order, with the same intervals
    in days and the same flags. *)
Theorem identify_readmissions_shift (c : Z) (df : list adm) :
  identify_readmissions (map (shift_adm c) df)
  = map (shift_flagged c) (identify_readmissions df).
Proof.
  unfold identify_readmissions. rewrite sort_values_shift.
  pose proof (group_shift_shift c (sort_values df) ∅) as H.
  rewrite fmap_empty in H. rewrite H. clear H.
  generalize (group_shift ∅ (sort_values df)) as prevs.
  induction (sort_values df) as [|r l IH]; intros [|p prevs]; simpl;
    try reflexivity.
  now rewrite IH, mark_shift.
Qed.

(** *** The identity key on the sample frame *)

Lemma ident_proxy_eq_witness :
  ident_proxy (Samples.stay 0 "355030" 0 5) = ident_proxy (Samples.stay 3 "355030" 20 25)
  <-> munic_res (Samples.stay 0 "355030" 0 5) = munic_res (Samples.stay 3 "355030" 20 25)
      /\ nasc_str (Samples.stay 0 "355030" 0 5) = nasc_str (Samples.stay 3 "355030" 20 25)
      /\ sexo (Samples.stay 0 "355030" 0 5) = sexo (Samples.stay 3 "355030" 20 25)
      /\ cep_str (Samples.stay 0 "355030" 0 5) = cep_str (Samples.stay 3 "355030" 20 25).
Proof.
  apply (ident_proxy_eq (Samples.stay 0 "355030" 0 5) (Samples.stay 3 "355030" 20 25));
    intros H; apply StrFacts.contains_occurs in H; discriminate H.
Defined.

(** Without that, two different patients can share a key. *)
Example ident_proxy_collision :
  let a := mk_adm 0 "35|1960-05-17|3.0" "1960-05-17" "3.0" "01310100" 0 0 in
  let b := mk_adm 1 "35" "1960-05-17" "3.0" "1960-05-17|3.0|01310100" 0 0 in
  ident_proxy a = ident_proxy b /\ munic_res a <> munic_res b.
Proof. split; [reflexivity | discriminate]. Qed.

Lemma readmissions_bounded_witness :
  num_readmissoes (identify_readmissions Samples.stays)
  + Z.of_nat (size (keys Samples.stays))
  <= Z.of_nat (length Samples.stays)
  /\ num_readmissoes (identify_readmissions Samples.stays)
     < Z.of_nat (length Samples.stays).
Proof.
  destruct (readmissions_bounded Samples.stays) as [H1 H2].
  split; [exact H1 | apply H2; discriminate].
Defined.

End RatesFacts.

(** * Further properties of the cleaning filter *)

Module CleanProps.
Import Clean CleanFacts.

Lemma filter_twice {A : Type} (f g : A -> bool) (l : list A) :
  List.filter f (List.filter g l) = List.filter (fun x => g x && f x) l.
Proof.
  induction l as [|x l IH]; simpl; [reflexivity |].
  destruct (g x); simpl; [| exact IH].
  destruct (f x); now rewrite IH.
Qed.

Lemma clean_as_filter (df : list row) :
  clean df
  = List.filter (fun r => essential_notna r && adult_stay r && dates_consistent r) df.
Proof.
  unfold clean. rewrite !filter_twice. apply List.filter_ext.
  intros r. now rewrite andb_assoc.
Qed.

Lemma filter_fixed {A : Type} (f : A -> bool) (l : list A) :
  List.filter f (List.filter f l) = List.filter f l.
Proof.
  induction l as [|x l IH]; simpl; [reflexivity |].
  destruct (f x) eqn:E; simpl; [| exact IH].
  now rewrite E, IH.
Qed.

(** X1. The filter judges every row on its own: cleaning two frames put
    end to end gives the two cleaned frames put end to end; cleaning a
    cleaned frame changes nothing; and the three steps of the filter can
    be taken in one pass. *)
Theorem cleaning_row_by_row (df1 df2 : list row) :
  clean (df1 ++ df2) = clean df1 ++ clean df2
  /\ clean (clean df1) = clean df1
  /\ clean df1
     = List.filter
         (fun r => essential_notna r && adult_stay r && dates_consistent r) df1.
Proof.
  split; [| split].
  - rewrite !clean_as_filter. apply List.filter_app.
  - rewrite !clean_as_filter. apply filter_fixed.
  - apply clean_as_filter.
Qed.

End CleanProps.

(** * Properties of the age bands *)

Module BandsFacts.
Import Clean Bands.

Lemma Qle_bool_true (k q : Q) : (k <= q)%Q -> Qle_bool k q = true.
Proof. apply Qle_bool_iff. Qed.

Lemma Qle_bool_false (k q : Q) : (q < k)%Q -> Qle_bool k q = false.
Proof.
  intros H. destruct (Qle_bool k q) eqn:E; [| reflexivity].
  apply Qle_bool_iff in E. lra.
Qed.

Ltac edges :=
  unfold cut, searchsorted_right, bins, labels; simpl;
  repeat match goal with
         | |- context [Qle_bool ?k ?q] =>
             first [ rewrite (Qle_bool_true k q) by lra
                   | rewrite (Qle_bool_false k q) by lra ]
         end;
  reflexivity.

(** Where an age falls. *)
Lemma band_cases (q : Q) :
  ((q < 18)%Q /\ cut bins labels (fin q) = None)
  \/ ((18 <= q < 30)%Q /\ cut bins labels (fin q) = Some "18-30")
  \/ ((30 <= q < 40)%Q /\ cut bins labels (fin q) = Some "31-40")
  \/ ((40 <= q < 50)%Q /\ cut bins labels (fin q) = Some "41-50")
  \/ ((50 <= q < 60)%Q /\ cut bins labels (fin q) = Some "51-60")
  \/ ((60 <= q < 70)%Q /\ cut bins labels (fin q) = Some "61-70")
  \/ ((70 <= q < 80)%Q /\ cut bins labels (fin q) = Some "71-80")
  \/ ((80 <= q)%Q /\ cut bins labels (fin q) = Some "80+").
Proof.
  destruct (Qlt_le_dec q 18); [left; split; [assumption | edges] | right].
  destruct (Qlt_le_dec q 30); [left; split; [lra | edges] | right].
  destruct (Qlt_le_dec q 40); [left; split; [lra | edges] | right].
  destruct (Qlt_le_dec q 50); [left; split; [lra | edges] | right].
  destruct (Qlt_le_dec q 60); [left; split; [lra | edges] | right].
  destruct (Qlt_le_dec q 70); [left; split; [lra | edges] | right].
  destruct (Qlt_le_dec q 80); [left; split; [lra | edges] | right].
  split; [assumption | edges].
Qed.

(** X8. The band of an age: a finite age gets the label of the table
    whose interval, closed below and open above, holds it, and no label
    below 18; so the label '31-40' stands for the ages from 30 up to,
    not including, 40, and an age of exactly 80 is in '80+'.  A missing
    or infinite age gets no band. *)
Theorem faixa_etaria_bands (q : Q) (label : string) :
  (cut bins labels (fin q) = Some label
   <-> exists lo hi, In (label, lo, hi) band_table /\ in_band q lo hi)
  /\ cut bins labels nan = None
  /\ cut bins labels pos_inf = None
  /\ cut bins labels neg_inf = None.
Proof.
  split; [| repeat split].
  unfold band_table, in_band. split.
  - intros H.
    destruct (band_cases q)
      as [[Hq E] | [[Hq E] | [[Hq E] | [[Hq E] | [[Hq E] | [[Hq E] | [[Hq E] | [Hq E]]]]]]]];
      rewrite E in H; try discriminate H; injection H as <-.
    + exists 18%Q, (Some 30%Q). simpl. split; [tauto | lra].
    + exists 30%Q, (Some 40%Q). simpl. split; [tauto | lra].
    + exists 40%Q, (Some 50%Q). simpl. split; [tauto | lra].
    + exists 50%Q, (Some 60%Q). simpl. split; [tauto | lra].
    + exists 60%Q, (Some 70%Q). simpl. split; [tauto | lra].
    + exists 70%Q, (Some 80%Q). simpl. split; [tauto | lra].
    + exists 80%Q, None. simpl. split; [tauto | lra].
  - intros (lo & hi & Hin & Hlo & Hhi). simpl in Hin.
    repeat (destruct Hin as [Hin | Hin];
            [injection Hin as <- <- <-; edges |]).
    destruct Hin.
Qed.

(** X9. Every row the filter keeps falls in a band, unless its age is
    infinite: no record with a finite age is lost from figure 1. *)
Theorem cleaned_rows_have_band (df : list row) (r : row) :
  In r (clean df) ->
  idade r = pos_inf
  \/ exists label, faixa_etaria r = Some label /\ In label labels.
Proof.
  intros H. apply CleanFacts.clean_In in H as [_ (_ & Hage & _)].
  destruct Hage as [Hinf | (q & Hq & Hle)]; [now left | right].
  unfold faixa_etaria. rewrite Hq.
  destruct (band_cases q)
    as [[H0 E] | [[H0 E] | [[H0 E] | [[H0 E] | [[H0 E] | [[H0 E] | [[H0 E] | [H0 E]]]]]]]];
    [lra | ..]; rewrite E; eexists; (split; [reflexivity | simpl; tauto]).
Qed.

Lemma cleaned_rows_have_band_witness :
  In Samples.row0 (clean Samples.loaded)
  /\ (idade Samples.row0 = pos_inf
      \/ exists label, faixa_etaria Samples.row0 = Some label /\ In label labels).
Proof.
  assert (H : In Samples.row0 (clean Samples.loaded)) by (simpl; tauto).
  split; [exact H | exact (cleaned_rows_have_band Samples.loaded Samples.row0 H)].
Defined.

Example bands_at_the_edges :
  cut bins labels (fin 30) = Some "31-40"
  /\ cut bins labels (fin (299 # 10)) = Some "18-30"
  /\ cut bins labels (fin 80) = Some "80+"
  /\ cut bins labels (fin 17) = None.
Proof. repeat split. Qed.

End BandsFacts.

(** * Properties of the counts by category *)

Module CountsFacts.
Import Counts.

Lemma value_counts_lookup (l : list string) (c : string) :
  value_counts l !! c
  = if Nat.eqb (occurrences c l) 0 then None else Some (occurrences c l).
Proof.
  unfold occurrences. induction l as [|x l IH]; simpl; [reflexivity |].
  destruct (String.eqb_spec c x) as [<- | Hne].
  - rewrite lookup_insert_eq, IH. simpl.
    now destruct (Nat.eqb (length (List.filter (String.eqb c) l)) 0) eqn:E;
      [apply Nat.eqb_eq in E; rewrite E |].
  - rewrite lookup_insert_ne by congruence. exact IH.
Qed.

Lemma total_insert (m : gmap string nat) (c : string) :
  total (<[c := S (default 0%nat (m !! c))]> m) = S (total m).
Proof.
  unfold total.
  assert (Hcomm : forall (m' : gmap string nat) (j1 j2 : string) (z1 z2 y : nat),
             j1 <> j2 -> m' !! j1 = Some z1 -> m' !! j2 = Some z2 ->
             (z1 + (z2 + y) = z2 + (z1 + y))%nat) by (intros; lia).
  destruct (m !! c) as [n|] eqn:E; simpl.
  - rewrite <- insert_delete_eq.
    rewrite map_fold_insert_L; [| apply Hcomm | apply lookup_delete_eq].
    rewrite (map_fold_delete_L _ _ c n m); [lia | apply Hcomm | exact E].
  - rewrite map_fold_insert_L; [lia | apply Hcomm | exact E].
Qed.

Lemma total_value_counts (l : list string) : total (value_counts l) = length l.
Proof.
  induction l as [|x l IH]; simpl.
  - unfold total. apply map_fold_empty.
  - now rewrite total_insert, IH.
Qed.

Lemma value_counts_dom (l : list string) (c : string) (n : nat) :
  value_counts l !! c = Some n -> In c l.
Proof.
  rewrite value_counts_lookup. unfold occurrences.
  destruct (Nat.eqb _ 0) eqn:E; [discriminate |]. intros _.
  apply Nat.eqb_neq in E.
  destruct (List.filter (String.eqb c) l) as [|y k] eqn:F; [now elim E |].
  assert (Hy : In y (List.filter (String.eqb c) l)) by (rewrite F; now left).
  apply filter_In in Hy as [Hy Hc]. apply String.eqb_eq in Hc. now subst.
Qed.

(** X10. The table of counts written by section 5 accounts for every
    row once: a category has a line exactly when some row falls in it,
    with the number of those rows; only the five categories can occur;
    and the counts add up to the number of rows of the frame. *)
Theorem proc_counts_account_for_rows (lower : string -> string)
  (df : list Clean.row) (c : string) :
  proc_counts lower df !! c
  = (if Nat.eqb (occurrences c (proc_categoria lower df)) 0 then None
     else Some (occurrences c (proc_categoria lower df)))
  /\ (is_Some (proc_counts lower df !! c) -> In c Categorize.categories)
  /\ total (proc_counts lower df) = length df
  /\ (size (proc_counts lower df) <= 5)%nat.
Proof.
  assert (Hdom : forall k, is_Some (proc_counts lower df !! k) ->
                           In k Categorize.categories).
  { intros k [n Hn]. apply value_counts_dom in Hn.
    unfold proc_categoria in Hn. apply in_map_iff in Hn as (r & <- & _).
    unfold Categorize.categorize_procedure_v2, Categorize.categories.
    destruct (Str.any_in Categorize.major_kws _); [simpl; tauto |].
    destruct (Str.any_in Categorize.specific_kws _ && negb _); [simpl; tauto |].
    destruct (Str.any_in Categorize.minor_kws _); [simpl; tauto |].
    destruct (Str.any_in Categorize.other_kws _); [simpl; tauto |].
    destruct (Str.any_in Categorize.conservative_kws _); simpl; tauto. }
  split; [apply value_counts_lookup |]. split; [apply Hdom |]. split.
  - unfold proc_counts. rewrite total_value_counts. unfold proc_categoria.
    apply length_map.
  - rewrite <- size_dom.
    transitivity (size (list_to_set Categorize.categories : gset string)).
    + apply subseteq_size. intros k Hk. apply elem_of_dom in Hk.
      apply elem_of_list_to_set, list_elem_of_In. now apply Hdom.
    + rewrite size_list_to_set by apply CategorizeFacts.categories_distinct.
      reflexivity.
Qed.

Example proc_counts_sample :
  let counts := proc_counts Categorize.ascii_lower (Clean.clean Samples.loaded) in
  counts !! "Procedimentos Específicos" = Some 1%nat
  /\ counts !! "Conservador" = Some 1%nat
  /\ counts !! "Outros procedimentos" = Some 1%nat
  /\ counts !! "Cirurgia Grande" = None.
Proof. repeat split; vm_compute; reflexivity. Qed.

End CountsFacts.

(** * Properties of the run: how it starts and how it ends *)

Module FlowFacts.
Import Script Flow ScriptFacts.

Section RunFacts.

Context {num : Type}.
Variable np_exp : num -> num.
Variable str_float : Clean.float -> string.

(** *** Whether the run gets past section 2 *)

Lemma setup_goes_on (e : env num) : snd (setup e) = Some tt.
Proof. unfold setup. now destruct (dir_exists e). Qed.

Lemma load_result (e : env num) : snd (load e) = loaded_frame e.
Proof.
  unfold load, loaded_frame.
  destruct (first_read e); [| destruct (second_read e) | |]; reflexivity.
Qed.

Lemma has_column_app (a b : list string) (c : string) :
  has_column (a ++ b) c = has_column a c || has_column b c.
Proof. unfold has_column. apply existsb_app. Qed.

Lemma filter_nil_forallb {A : Type} (f : A -> bool) (l : list A) :
  List.filter f l = [] <-> forallb (fun x => negb (f x)) l = true.
Proof.
  induction l as [|x l IH]; simpl; [tauto |].
  destruct (f x); simpl; [| exact IH].
  split; discriminate.
Qed.

Lemma nothing_missing (cols : list string) :
  has_column cols "cep" = true ->
  forallb (fun c => negb (negb (has_column (cols ++ ["cep_str"]) c))) cols_to_check_na
  = forallb (has_column cols) required_cols.
Proof.
  intros Hcep. unfold cols_to_check_na, required_cols. cbn [forallb].
  rewrite Hcep, !negb_involutive, !has_column_app.
  cbn. now rewrite !orb_false_r, orb_true_r.
Qed.

(** A name that two columns carry is the name of a column. *)
Lemma ambiguous_has (cols : list string) (c : string) :
  ambiguous cols c = true -> has_column cols c = true.
Proof.
  unfold ambiguous, has_column. intros H. apply Nat.ltb_lt in H.
  destruct (List.filter (String.eqb c) cols) as [|x l] eqn:E; [simpl in H; lia |].
  assert (Hx : In x (List.filter (String.eqb c) cols)) by (rewrite E; now left).
  apply filter_In in Hx as [Hx Hc]. apply existsb_exists. eauto.
Qed.



Lemma convert_numeric_result (cols l : list string) :
  snd (convert_numeric (num:=num) cols l)
  = if all_clear cols l then Some tt else None.
Proof.
  induction l as [|c l IH]; [reflexivity |].
  cbn [convert_numeric all_clear forallb]. rewrite snd_bind.
  destruct (ambiguous cols c) eqn:Ea.
  - now rewrite (ambiguous_has _ _ Ea).
  - destruct (has_column cols c); exact IH.
Qed.

Lemma convert_dates_result (cols l : list string) :
  snd (convert_dates (num:=num) cols l)
  = if all_clear cols l then Some tt else None.
Proof.
  induction l as [|c l IH]; [reflexivity |].
  cbn [convert_dates all_clear forallb]. rewrite snd_bind.
  destruct (ambiguous cols c) eqn:Ea.
  - now rewrite (ambiguous_has _ _ Ea).
  - destruct (has_column cols c); exact IH.
Qed.

Lemma unambiguous_split (fr : frame) :
  unambiguous fr
  = all_clear (columns fr) numeric_cols && all_clear (columns fr) date_cols
    && negb (ambiguous (columns fr) "cep").
Proof.
  unfold unambiguous, converted_cols, all_clear.
  rewrite !forallb_app. cbn [forallb].
  now rewrite andb_true_r, andb_assoc.
Qed.

Lemma accepted_cep (fr : frame) :
  has_column (columns fr) "cep" = false -> accepted fr = false.
Proof. intros H. unfold accepted, required_cols. cbn [forallb]. now rewrite H. Qed.

Lemma prepare_result (fr : frame) :
  snd (prepare (num:=num) fr)
  = if unambiguous fr && accepted fr then Some (Clean.clean (rows fr)) else None.
Proof.
  unfold prepare. rewrite unambiguous_split.
  rewrite snd_bind, convert_numeric_result.
  destruct (all_clear (columns fr) numeric_cols); [| reflexivity].
  rewrite snd_bind, convert_dates_result.
  destruct (all_clear (columns fr) date_cols); [| reflexivity].
  rewrite snd_bind. unfold make_cep_str.
  destruct (has_column (columns fr) "cep") eqn:Ecep.
  - destruct (ambiguous (columns fr) "cep"); [reflexivity |].
    cbn [snd ret andb negb]. unfold accepted.
    rewrite <- (nothing_missing _ Ecep).
    destruct (List.filter _ cols_to_check_na) as [|c missing] eqn:F.
    + apply filter_nil_forallb in F. rewrite F, snd_bind.
      now destruct (100 <? _).
    + destruct (forallb _ cols_to_check_na) eqn:G; [| reflexivity].
      apply filter_nil_forallb in G. congruence.
  - rewrite (accepted_cep fr Ecep), andb_false_r. reflexivity.
Qed.

Lemma prepared_result (e : env num) :
  snd (prepared e)
  = match loaded_frame e with
    | Some fr =>
        if unambiguous fr && accepted fr then Some (Clean.clean (rows fr)) else None
    | None => None
    end.
Proof.
  unfold prepared. rewrite snd_bind, setup_goes_on, snd_bind, load_result.
  destruct (loaded_frame e) as [fr|]; [| reflexivity].
  apply prepare_result.
Qed.

(** *** The uncaught exceptions *)

Lemma tracebacks_bind {A B : Type} (m : prog num A) (k : A -> prog num B) :
  tracebacks (fst (bind m k))
  = tracebacks (fst m)
    ++ match snd m with Some a => tracebacks (fst (k a)) | None => [] end.
Proof.
  unfold tracebacks. rewrite fst_bind, omap_app. now destruct (snd m).
Qed.

Lemma within_nil {A X : Type} (proj : event num -> option X) (m : prog num A) :
  within proj [] m -> omap proj (fst m) = [].
Proof. unfold within. apply sublist_nil_r. Qed.

Lemma within_In {A X : Type} (proj : event num -> option X) (L : list X)
  (m : prog num A) (x : X) :
  within proj L m -> In x (omap proj (fst m)) -> In x L.
Proof.
  unfold within. intros Hs Hx. apply list_elem_of_In.
  eapply elem_of_sublist; [| exact Hs]. now apply list_elem_of_In.
Qed.

Lemma convert_numeric_tracebacks (cols l : list string) :
  tracebacks (fst (convert_numeric (num:=num) cols l))
  = if all_clear cols l then [] else ["TypeError"].
Proof.
  induction l as [|c l IH]; [reflexivity |].
  cbn [convert_numeric all_clear forallb]. rewrite tracebacks_bind.
  destruct (ambiguous cols c) eqn:Ea.
  - now rewrite (ambiguous_has _ _ Ea).
  - destruct (has_column cols c); exact IH.
Qed.

Lemma convert_dates_tracebacks (cols l : list string) :
  tracebacks (fst (convert_dates (num:=num) cols l))
  = if all_clear cols l then [] else ["ValueError"].
Proof.
  induction l as [|c l IH]; [reflexivity |].
  cbn [convert_dates all_clear forallb]. rewrite tracebacks_bind.
  destruct (ambiguous cols c) eqn:Ea.
  - now rewrite (ambiguous_has _ _ Ea).
  - destruct (has_column cols c); exact IH.
Qed.

(** One exception at most, and one exactly when a converted column is
    named twice. *)
Lemma prepare_tracebacks (fr : frame) :
  exists x, tracebacks (fst (prepare (num:=num) fr))
            = if unambiguous fr then [] else [x].
Proof.
  unfold prepare. rewrite unambiguous_split.
  rewrite tracebacks_bind, convert_numeric_tracebacks, convert_numeric_result.
  destruct (all_clear (columns fr) numeric_cols); [| eexists; reflexivity].
  rewrite tracebacks_bind, convert_dates_tracebacks, convert_dates_result.
  destruct (all_clear (columns fr) date_cols); [| eexists; reflexivity].
  rewrite tracebacks_bind. unfold make_cep_str.
  destruct (has_column (columns fr) "cep") eqn:Ecep.
  - destruct (ambiguous (columns fr) "cep") eqn:Ea; [eexists; reflexivity |].
    exists "". cbn [fst snd ret andb negb app].
    destruct (List.filter _ cols_to_check_na) as [|c missing]; [| reflexivity].
    rewrite tracebacks_bind. now destruct (100 <? _).
  - exists "".
    assert (Ea : ambiguous (columns fr) "cep" = false).
    { destruct (ambiguous (columns fr) "cep") eqn:Ea; [| reflexivity].
      apply ambiguous_has in Ea. congruence. }
    rewrite Ea. reflexivity.
Qed.

Lemma prepared_tracebacks (e : env num) :
  tracebacks (fst (prepared e))
  = match loaded_frame e with
    | Some fr => tracebacks (fst (prepare (num:=num) fr))
    | None => []
    end.
Proof.
  unfold prepared. rewrite tracebacks_bind, setup_goes_on, tracebacks_bind, load_result.
  replace (tracebacks (fst (setup e))) with (@nil string)
    by (unfold setup; now destruct (dir_exists e)).
  replace (tracebacks (fst (load e))) with (@nil string); [reflexivity |].
  unfold load. destruct (first_read e); [| destruct (second_read e) | |]; reflexivity.
Qed.

(** *** The sections after the cleaning *)



(** What sections 3 to 10 do: sections 3 to 7, and past section 7 the
    handler of the regression and the message that stands for
    figure 3. *)
Lemma analysis_trace (e : env num) (df : list Clean.row) :
  exists df4 msg,
    snd (section4 e (omap (admission str_float) df)) = Some df4
    /\ fst (analysis np_exp str_float e df)
       = fst (section3 e df) ++ fst (section4 e (omap (admission str_float) df))
         ++ fst (section5 (num:=num)) ++ fst (section6 e df4)
         ++ fst (section7 e df)
         ++ match snd (section7 e df) with
            | None => []
            | Some _ =>
                [Print ("Erro ao executar a regressão logística: " +:+ msg);
                 Print "Aviso: Regressão logística falhou ou não foi executada. Figura 3 não gerada."]
            end.
Proof.
  destruct (section4_goes_on e (omap (admission str_float) df)) as [df4 H4].
  destruct (section8_raises np_exp e) as [msg H8].
  exists df4, msg. split; [exact H4 |].
  destruct (section3_goes_on e df) as [b3 H3].
  destruct (section6_goes_on e df4) as [b6 H6].
  unfold analysis.
  rewrite fst_bind, H3. rewrite fst_bind, H4. rewrite fst_bind.
  cbn [snd section5 emit]. rewrite fst_bind, H6. rewrite fst_bind.
  do 5 f_equal.
  destruct (snd (section7 e df)) as [[]|]; [| reflexivity].
  rewrite fst_bind, H8. cbn [fst snd]. rewrite fst_bind, section9_skipped.
  reflexivity.
Qed.

Lemma analysis_result (e : env num) (df : list Clean.row) :
  snd (analysis np_exp str_float e df) = snd (section7 e df).
Proof.
  destruct (section4_goes_on e (omap (admission str_float) df)) as [df4 H4].
  destruct (section8_raises np_exp e) as [msg H8].
  destruct (section3_goes_on e df) as [b3 H3].
  destruct (section6_goes_on e df4) as [b6 H6].
  unfold analysis.
  rewrite snd_bind, H3, snd_bind, H4, snd_bind. cbn [snd section5 emit].
  rewrite snd_bind, H6, snd_bind.
  destruct (snd (section7 e df)) as [[]|]; [| reflexivity].
  rewrite snd_bind, H8. cbn [snd]. now rewrite snd_bind, section9_skipped.
Qed.

Lemma analysis_within {X : Type} (proj : event num -> option X) (e : env num)
  (df : list Clean.row) :
  (forall text, proj (Print text) = None) ->
  within proj (omap proj analysis_effects) (analysis np_exp str_float e df).
Proof.
  intros Hp. unfold within.
  destruct (analysis_trace e df) as (df4 & msg & _ & ->).
  change (analysis_effects (num:=num))
    with ([out_file (num:=num) tabela1 Table] ++ [] ++ [out_file contagem Table]
          ++ [out_file figura1_png Image; out_file figura1_tiff Image;
              out_file figura2_png Image; out_file figura2_tiff Image]
          ++ [] ++ []).
  rewrite !omap_app.
  apply sublist_app; [now apply section3_within |].
  apply sublist_app; [now apply section4_within |].
  apply sublist_app; [reflexivity |].
  apply sublist_app; [now apply section6_within |].
  apply sublist_app; [now apply section7_within |].
  destruct (snd (section7 e df)); simpl; rewrite ?Hp; constructor.
Qed.

Lemma prepared_writes_nothing (e : env num) :
  written (fst (prepared e)) = [].
Proof.
  pose proof (prepared_within write_path e
                (fun _ => eq_refl) (fun _ => eq_refl) (fun _ => eq_refl)) as H.
  unfold within in H. apply sublist_nil_r.
  replace (omap write_path (fst (setup e))) with (@nil string) in H; [exact H |].
  unfold setup. now destruct (dir_exists e).
Qed.



(** X12. When the file cannot be read, lacks one of the columns the
    script needs, or holds under two names one of the columns the
    script converts, the run stops without having written any file:
    with the traceback of an uncaught exception when a converted
    column is there twice, through [exit()] otherwise. *)
Theorem failed_start_writes_nothing (e : env num) :
  (forall fr, loaded_frame e = Some fr -> unambiguous fr && accepted fr = false) ->
  written (trace (run np_exp str_float e)) = []
  /\ snd (run np_exp str_float e) = None
  /\ (tracebacks (trace (run np_exp str_float e)) = []
      <-> forall fr, loaded_frame e = Some fr -> unambiguous fr = true).
Proof.
  intros H.
  assert (Hc : snd (prepared e) = None).
  { rewrite prepared_result. destruct (loaded_frame e) as [fr|]; [| reflexivity].
    now rewrite (H fr eq_refl). }
  unfold trace, run. rewrite fst_bind, snd_bind, Hc, app_nil_r.
  split; [apply prepared_writes_nothing |]. split; [reflexivity |].
  rewrite prepared_tracebacks.
  destruct (loaded_frame e) as [fr|];
    [| split; [intros _ fr Hfr; discriminate Hfr | reflexivity]].
  destruct (prepare_tracebacks fr) as [x ->].
  destruct (unambiguous fr) eqn:Eu.
  - split; [intros _ fr' Hfr; now injection Hfr as <- | reflexivity].
  - split; [discriminate |]. intros Hu. specialize (Hu fr eq_refl). congruence.
Qed.

(** *** The reads *)

(** X14. The input file is the only file the run reads: once, and a
    second time exactly when the first attempt raised
    UnicodeDecodeError. *)
Theorem input_read_once_or_twice (e : env num) :
  reads (trace (run np_exp str_float e))
  = match first_read e with
    | UnicodeDecodeError => [input_csv; input_csv]
    | _ => [input_csv]
    end.
Proof.
  unfold reads, trace, run. rewrite fst_bind, omap_app.
  assert (Ha : omap read_path
                 match snd (prepared e) with
                 | Some df => fst (analysis np_exp str_float e df)
                 | None => []
                 end = []).
  { destruct (snd (prepared e)) as [df|]; [| reflexivity].
    apply within_nil.
    exact (analysis_within read_path e df (fun _ => eq_refl)). }
  rewrite Ha, app_nil_r. unfold prepared.
  rewrite fst_bind, omap_app.
  replace (omap read_path (fst (setup e))) with (@nil string)
    by (unfold setup; now destruct (dir_exists e)).
  rewrite setup_goes_on, fst_bind, omap_app. cbn [app].
  assert (Hp : omap read_path
                 match snd (load e) with
                 | Some fr => fst (prepare (num:=num) fr)
                 | None => []
                 end = []).
  { destruct (snd (load e)) as [fr|]; [| reflexivity].
    apply within_nil.
    exact (prepare_within read_path fr (fun _ => eq_refl) (fun _ => eq_refl)). }
  rewrite Hp, app_nil_r. unfold load.
  destruct (first_read e); [| destruct (second_read e) | |]; reflexivity.
Qed.

(** *** The files of the regression *)

(** X13. No run writes the table of odds ratios or the forest plot: the
    files a run writes are among the six of sections 3 to 6, in that
    order and each at most once; and a run that reaches its last line
    has printed that figure 3 was not drawn. *)
Theorem regression_files_never_written (e : env num) :
  sublist (written (trace (run np_exp str_float e)))
          (map (path_join output_dir) analysis_names)
  /\ (snd (run np_exp str_float e) = Some tt ->
      In (Print "Aviso: Regressão logística falhou ou não foi executada. Figura 3 não gerada.")
         (trace (run np_exp str_float e))).
Proof.
  unfold trace, run. rewrite fst_bind, snd_bind. split.
  - unfold written. rewrite omap_app. fold (written (fst (prepared e))).
    rewrite prepared_writes_nothing. cbn [app].
    destruct (snd (prepared e)) as [df|]; [| apply sublist_nil_l].
    exact (analysis_within write_path e df (fun _ => eq_refl)).
  - destruct (snd (prepared e)) as [df|]; [| discriminate].
    rewrite analysis_result. intros H7.
    destruct (analysis_trace e df) as (df4 & msg & _ & ->). rewrite H7.
    rewrite !in_app_iff. do 6 right. right. now left.
Qed.

(** *** A run in which nothing else raises *)





(** *** From the filter to section 4 *)

Lemma admissions_keep_labels (l : list Clean.row) :
  (forall r, In r l -> exists a, admission str_float r = Some a) ->
  map Readmit.label (omap (admission str_float) l) = map Clean.label l.
Proof.
  induction l as [|r l IH]; intros H; [reflexivity |].
  destruct (H r (or_introl eq_refl)) as [a Ha]. simpl. rewrite Ha. simpl.
  rewrite (admission_label str_float r a Ha). f_equal.
  apply IH. intros r' Hr'. apply H. now right.
Qed.

(** X2. Between the filter and the readmission step no row is lost,
    added or moved: the admissions that reach section 4 are the rows
    the filter kept, one for one and under their labels; and when the
    labels of the file increase, as those given by [read_csv] do, so do
    the labels of the frame section 4 works on. *)
Theorem cleaned_frame_reaches_section4 (l : list Clean.row) :
  StronglySorted lt (map Clean.label l) ->
  map Readmit.label (omap (admission str_float) (Clean.clean l))
  = map Clean.label (Clean.clean l)
  /\ Readmit.labels_increasing (omap (admission str_float) (Clean.clean l))
  /\ forall a, In a (omap (admission str_float) (Clean.clean l)) ->
       exists r, In r l /\ Clean.survives r /\ admission str_float r = Some a.
Proof.
  intros Hl. split; [| split].
  - apply admissions_keep_labels. intros r Hr.
    now apply (cleaned_rows_are_admissions str_float l).
  - now apply cleaned_labels_increasing.
  - intros a Ha. apply list_elem_of_In, list_elem_of_omap in Ha as (r & Hr & Hra).
    apply list_elem_of_In, CleanFacts.clean_In in Hr as [Hr Hs]. eauto.
Qed.

End RunFacts.

(** *** Runs on the sample frames *)



Lemma failed_start_writes_nothing_witness :
  let e := mk_env R true
             (ReadFrame (mk_frame ("idade" :: Samples.all_columns) Samples.loaded))
             (RetryError "unused") None None None None None
             Samples.one_coefficient None in
  (forall fr, loaded_frame e = Some fr -> unambiguous fr && accepted fr = false)
  /\ (written (trace (run exp str_whole e)) = []
      /\ snd (run exp str_whole e) = None
      /\ (tracebacks (trace (run exp str_whole e)) = []
          <-> forall fr, loaded_frame e = Some fr -> unambiguous fr = true)).
Proof.
  intros e.
  assert (H : forall fr, loaded_frame e = Some fr -> unambiguous fr && accepted fr = false)
    by (intros fr Hfr; injection Hfr as <-; reflexivity).
  split; [exact H | exact (failed_start_writes_nothing exp str_whole e H)].
Defined.

Lemma regression_files_never_written_witness :
  snd (run exp str_whole Samples.quiet_run) = Some tt
  /\ sublist (written (trace (run exp str_whole Samples.quiet_run)))
             (map (path_join output_dir) analysis_names)
  /\ In (Print "Aviso: Regressão logística falhou ou não foi executada. Figura 3 não gerada.")
        (trace (run exp str_whole Samples.quiet_run)).
Proof.
  assert (H : snd (run exp str_whole Samples.quiet_run) = Some tt) by reflexivity.
  split; [exact H |].
  destruct (regression_files_never_written exp str_whole Samples.quiet_run) as [H1 H2].
  split; [exact H1 | exact (H2 H)].
Defined.



Lemma cleaned_frame_reaches_section4_witness :
  StronglySorted lt (map Clean.label Samples.loaded)
  /\ (map Readmit.label (omap (admission str_whole) (Clean.clean Samples.loaded))
      = map Clean.label (Clean.clean Samples.loaded)
      /\ Readmit.labels_increasing (omap (admission str_whole) (Clean.clean Samples.loaded))
      /\ forall a, In a (omap (admission str_whole) (Clean.clean Samples.loaded)) ->
           exists r, In r Samples.loaded /\ Clean.survives r
                     /\ admission str_whole r = Some a).
Proof.
  assert (H : StronglySorted lt (map Clean.label Samples.loaded)).
  { simpl. repeat (constructor; [| repeat constructor; lia]). constructor. }
  split; [exact H | exact (cleaned_frame_reaches_section4 str_whole Samples.loaded H)].
Defined.

End FlowFacts.

(** * Properties of the renaming of the columns *)

Module HeaderFacts.
Import Script Flow Header.

Lemma lookup_existing (d : list (string * string)) (header : list string) (c : string) :
  lookup_name (List.filter (fun kv => has_column header (fst kv)) d) c
  = if has_column header c then lookup_name d c else None.
Proof.
  induction d as [|[k v] d IH]; simpl; [now destruct (has_column header c) |].
  destruct (has_column header k) eqn:Ek; simpl.
  - destruct (String.eqb_spec k c) as [<- | Hne]; [now rewrite Ek | exact IH].
  - destruct (String.eqb_spec k c) as [<- | Hne]; [now rewrite IH, Ek | exact IH].
Qed.

Lemma has_column_In (header : list string) (c : string) :
  In c header -> has_column header c = true.
Proof.
  intros H. unfold has_column. apply existsb_exists.
  exists c. split; [exact H | apply String.eqb_refl].
Qed.

Lemma rename_renamed (header : list string) : rename header = map renamed header.
Proof.
  unfold rename, renamed, existing_columns. apply map_ext_in.
  intros c Hc. now rewrite lookup_existing, (has_column_In _ _ Hc).
Qed.

Ltac by_key h :=
  unfold renamed, rename_map; cbn [lookup_name];
  repeat match goal with
         | |- context [String.eqb ?k h] =>
             destruct (String.eqb_spec k h); [subst h; reflexivity |]
         end;
  cbn [default];
  repeat match goal with
         | H : ?a <> h |- context [String.eqb ?a h] =>
             rewrite (proj2 (String.eqb_neq a h) H)
         end;
  reflexivity.

(** A name is a key of the dictionary, or it stays. *)
Lemma renamed_cases (h : string) :
  (exists v, In (h, v) rename_map) \/ renamed h = h.
Proof.
  unfold renamed, rename_map. cbn [lookup_name].
  repeat match goal with
         | |- context [String.eqb ?k h] =>
             destruct (String.eqb_spec k h);
             [left; subst h; eexists; cbn; tauto |]
         end.
  right. reflexivity.
Qed.

Lemma renamed_twice (h : string) : renamed (renamed h) = renamed h.
Proof.
  destruct (renamed_cases h) as [[v Hin] | H]; [| now rewrite !H].
  unfold rename_map in Hin. cbn in Hin.
  repeat (destruct Hin as [Hin | Hin]; [injection Hin as <- <-; reflexivity |]).
  destruct Hin.
Qed.

Lemma renamed_is (k v h : string) :
  In (k, v) rename_map ->
  String.eqb v (renamed h) = String.eqb k h || String.eqb v h.
Proof.
  intros Hin. unfold rename_map in Hin. cbn in Hin.
  repeat (destruct Hin as [Hin | Hin]; [injection Hin as <- <-; by_key h |]).
  destruct Hin.
Qed.

Lemma has_column_renamed (header : list string) (k v : string) :
  In (k, v) rename_map ->
  has_column (rename header) v = has_column header k || has_column header v.
Proof.
  intros Hin. rewrite rename_renamed. unfold has_column.
  induction header as [|h header IH]; simpl; [reflexivity |].
  rewrite IH, (renamed_is k v h Hin).
  destruct (String.eqb k h), (String.eqb v h), (existsb (String.eqb k) header),
    (existsb (String.eqb v) header); reflexivity.
Qed.

(** *** Names that two columns carry after the renaming *)

Lemma filter_renamed (v : string) (header : list string) :
  length (List.filter (String.eqb v) (map renamed header))
  = length (List.filter (fun h => String.eqb v (renamed h)) header).
Proof.
  induction header as [|h header IH]; simpl; [reflexivity |].
  destruct (String.eqb v (renamed h)); simpl; now rewrite IH.
Qed.

Lemma has_column_false (header : list string) (c : string) :
  ~ In c header -> has_column header c = false.
Proof.
  intros H. apply not_true_is_false. intros E. apply H.
  unfold has_column in E. apply existsb_exists in E as (x & Hx & Hc).
  apply String.eqb_eq in Hc. now subst.
Qed.

(** In a header whose names differ, a name and its new name stand for
    at most two columns: one each. *)
Lemma count_both (header : list string) (k v : string) :
  NoDup header -> k <> v ->
  length (List.filter (fun h => String.eqb k h || String.eqb v h) header)
  = ((if has_column header k then 1 else 0)
     + (if has_column header v then 1 else 0))%nat.
Proof.
  intros Hnd Hkv. induction Hnd as [|h header Hh Hnd IH]; [reflexivity |].
  rewrite list_elem_of_In in Hh.
  unfold has_column in *. cbn [List.filter existsb].
  destruct (String.eqb_spec k h) as [<- | Hkh].
  - rewrite (proj2 (String.eqb_neq v k)) by congruence.
    cbn [orb length]. rewrite IH.
    fold (has_column header k). rewrite (has_column_false header k Hh).
    reflexivity.
  - destruct (String.eqb_spec v h) as [<- | Hvh].
    + cbn [orb length]. rewrite IH.
      fold (has_column header v). rewrite (has_column_false header v Hh).
      cbn [orb]. lia.
    + cbn [orb]. exact IH.
Qed.

Lemma ambiguous_renamed (header : list string) (k v : string) :
  NoDup header -> In (k, v) rename_map ->
  ambiguous (rename header) v = has_column header k && has_column header v.
Proof.
  intros Hnd Hin. unfold ambiguous.
  rewrite rename_renamed, filter_renamed.
  rewrite (List.filter_ext _ (fun h => String.eqb k h || String.eqb v h))
    by (intros h; now apply renamed_is).
  rewrite count_both; [| exact Hnd |].
  - now destruct (has_column header k), (has_column header v).
  - unfold rename_map in Hin. cbn in Hin.
    repeat (destruct Hin as [Hin | Hin]; [injection Hin as <- <-; discriminate |]).
    destruct Hin.
Qed.

Section Outcome.

Context {num : Type}.

(** X16. The renaming gives every column of the file its lower-case
    name and leaves the other names alone, so that renaming twice is
    renaming once.  A file whose columns have different names gets
    through section 2, to the filtered frame, exactly when it has each
    of the ten columns the script needs under its upper-case or its
    lower-case name, and none of the eight columns the script converts
    under both; and the script dies of an uncaught exception in
    section 2 exactly when one of the eight is there under both. *)
Theorem header_outcome (header : list string) (rows : list Clean.row) :
  NoDup header ->
  rename (rename header) = rename header
  /\ length (rename header) = length header
  /\ (snd (prepare (num:=num) (mk_frame (rename header) rows))
      = Some (Clean.clean rows)
      <-> (forall k v, In (k, v) required_pairs ->
             has_column header k = true \/ has_column header v = true)
          /\ (forall k v, In (k, v) converted_pairs ->
                ~ (has_column header k = true /\ has_column header v = true)))
  /\ (tracebacks (fst (prepare (num:=num) (mk_frame (rename header) rows))) <> []
      <-> exists k v, In (k, v) converted_pairs
                      /\ has_column header k = true /\ has_column header v = true).
Proof.
  intros Hnd.
  assert (Hacc : accepted (mk_frame (rename header) rows) = true
                 <-> forall k v, In (k, v) required_pairs ->
                       has_column header k = true \/ has_column header v = true).
  { unfold accepted, required_cols, required_pairs. cbn [columns forallb].
    rewrite (has_column_renamed header "CEP" "cep") by (cbn; tauto).
    rewrite (has_column_renamed header "IDADE" "idade") by (cbn; tauto).
    rewrite (has_column_renamed header "DIAS_PERM" "dias_perm") by (cbn; tauto).
    rewrite (has_column_renamed header "SEXO" "sexo") by (cbn; tauto).
    rewrite (has_column_renamed header "MORTE" "morte") by (cbn; tauto).
    rewrite (has_column_renamed header "NASC" "nasc") by (cbn; tauto).
    rewrite (has_column_renamed header "DT_INTER" "dt_inter") by (cbn; tauto).
    rewrite (has_column_renamed header "DT_SAIDA" "dt_saida") by (cbn; tauto).
    rewrite (has_column_renamed header "MUNIC_RES" "munic_res") by (cbn; tauto).
    rewrite (has_column_renamed header "PROC_NOME" "proc_nome") by (cbn; tauto).
    rewrite !andb_true_iff, !orb_true_iff. split.
    - intros H k v Hin. simpl in Hin.
      repeat (destruct Hin as [Hin | Hin]; [injection Hin as <- <-; tauto |]).
      destruct Hin.
    - intros H.
      repeat (split; [apply H; simpl; tauto |]). reflexivity. }
  set (both := fun kv : string * string =>
                 has_column header (fst kv) && has_column header (snd kv)).
  assert (Hamb : unambiguous (mk_frame (rename header) rows)
                 = negb (existsb both converted_pairs)).
  { unfold unambiguous, all_clear, converted_cols, numeric_cols, date_cols,
      converted_pairs, both.
    cbn [columns forallb app existsb fst snd].
    rewrite (ambiguous_renamed header "IDADE" "idade" Hnd) by (cbn; tauto).
    rewrite (ambiguous_renamed header "DIAS_PERM" "dias_perm" Hnd) by (cbn; tauto).
    rewrite (ambiguous_renamed header "MORTE" "morte" Hnd) by (cbn; tauto).
    rewrite (ambiguous_renamed header "SEXO" "sexo" Hnd) by (cbn; tauto).
    rewrite (ambiguous_renamed header "DT_INTER" "dt_inter" Hnd) by (cbn; tauto).
    rewrite (ambiguous_renamed header "DT_SAIDA" "dt_saida" Hnd) by (cbn; tauto).
    rewrite (ambiguous_renamed header "NASC" "nasc" Hnd) by (cbn; tauto).
    rewrite (ambiguous_renamed header "CEP" "cep" Hnd) by (cbn; tauto).
    rewrite !negb_orb. reflexivity. }
  assert (Hex : existsb both converted_pairs = true
                <-> exists k v, In (k, v) converted_pairs
                                /\ has_column header k = true
                                /\ has_column header v = true).
  { rewrite existsb_exists. unfold both. split.
    - intros ([k v] & Hin & Hb). apply andb_true_iff in Hb. exists k, v. tauto.
    - intros (k & v & Hin & Hk & Hv). exists (k, v). cbn [fst snd].
      now rewrite Hk, Hv. }
  split; [| split; [| split]].
  - rewrite !rename_renamed, map_map. apply map_ext. apply renamed_twice.
  - unfold rename. apply length_map.
  - rewrite FlowFacts.prepare_result. cbn [Script.rows]. rewrite Hamb.
    destruct (existsb both converted_pairs) eqn:Eb;
      destruct (accepted (mk_frame (rename header) rows)) eqn:Ea; cbn [negb andb].
    + split; [discriminate |]. intros [_ H].
      destruct (proj1 Hex eq_refl) as (k & v & Hin & Hkv). now elim (H k v Hin).
    + split; [discriminate |]. intros [_ H].
      destruct (proj1 Hex eq_refl) as (k & v & Hin & Hkv). now elim (H k v Hin).
    + split; [| reflexivity]. intros _. split; [now apply Hacc |].
      intros k v Hin Hkv.
      assert (Hf : false = true) by (apply Hex; eauto). discriminate Hf.
    + split; [discriminate |]. intros [H _]. apply Hacc in H. discriminate H.
  - destruct (FlowFacts.prepare_tracebacks (num:=num) (mk_frame (rename header) rows))
      as [x ->].
    rewrite Hamb, <- Hex.
    destruct (existsb both converted_pairs); cbn [negb].
    + split; [reflexivity | discriminate].
    + split; [intros H; now elim H | discriminate].
Qed.

End Outcome.

Lemma header_outcome_witness :
  let header := ["MUNIC_RES"; "NASC"; "SEXO"; "CEP"; "DT_INTER"; "DT_SAIDA";
                 "DIAS_PERM"; "IDADE"; "idade"; "MORTE"; "PROC_NOME"] in
  NoDup header
  /\ tracebacks (fst (prepare (num:=R) (mk_frame (rename header) Samples.loaded))) <> []
  /\ exists k v, In (k, v) converted_pairs
                 /\ has_column header k = true /\ has_column header v = true.
Proof.
  intros header.
  assert (H : NoDup header) by (apply (bool_decide_unpack _); vm_compute; reflexivity).
  destruct (header_outcome (num:=R) header Samples.loaded H) as (_ & _ & _ & Ht).
  assert (Hx : tracebacks (fst (prepare (num:=R) (mk_frame (rename header) Samples.loaded)))
               <> []) by discriminate.
  split; [exact H |]. split; [exact Hx | exact (proj1 Ht Hx)].
Defined.

Example headers :
  rename ["IDADE"; "cep"; "UF"; "PROC_REA"] = ["idade"; "cep"; "UF"; "proc_rea"]
  /\ rename ["IDADE"; "idade"; "CEP"] = ["idade"; "idade"; "cep"]
  /\ accepted (mk_frame (rename ["MUNIC_RES"; "NASC"; "SEXO"; "CEP"; "DT_INTER";
                                  "DT_SAIDA"; "DIAS_PERM"; "IDADE"; "MORTE";
                                  "PROC_NOME"]) []) = true
  /\ accepted (mk_frame (rename ["MUNIC_RES"; "NASC"; "SEXO"; "Cep"; "DT_INTER";
                                  "DT_SAIDA"; "DIAS_PERM"; "IDADE"; "MORTE";
                                  "PROC_NOME"]) []) = false.
Proof. repeat split. Qed.

End HeaderFacts.

(** * The categories, keyword group by keyword group *)

Module CategoryTable.
Import Str StrFacts Categorize.

Section WithLower.

Variable lower : string -> string.

(** X17. The category of a name is that of the first group of keywords
    its lowercase form holds, the groups taken in the order: major
    surgery; arthrotomy or synovectomy without 'corpo estranho'; minor
    surgery; other procedures.  A name that holds 'corpo estranho' and
    no keyword of major or minor surgery is 'Outros procedimentos'; and
    'Conservador' is given only to a name with a conservative keyword
    and none of the four groups before. *)
Theorem category_by_first_group (proc_nome : cell) :
  let s := lowered lower proc_nome in
  let has kws := exists kw, In kw kws /\ occurs kw s in
  let specific := has specific_kws /\ ~ occurs "corpo estranho" s in
  (categorize_procedure_v2 lower proc_nome = "Cirurgia Grande" <-> has major_kws)
  /\ (categorize_procedure_v2 lower proc_nome = "Procedimentos Específicos"
      <-> ~ has major_kws /\ specific)
  /\ (categorize_procedure_v2 lower proc_nome = "Cirurgia Média/Pequena"
      <-> ~ has major_kws /\ ~ specific /\ has minor_kws)
  /\ (categorize_procedure_v2 lower proc_nome = "Conservador"
      <-> ~ has major_kws /\ ~ specific /\ ~ has minor_kws /\ ~ has other_kws
          /\ has conservative_kws)
  /\ (categorize_procedure_v2 lower proc_nome = "Outros procedimentos"
      <-> ~ has major_kws /\ ~ specific /\ ~ has minor_kws
          /\ (has other_kws \/ ~ has conservative_kws))
  /\ (occurs "corpo estranho" s -> ~ has major_kws -> ~ has minor_kws ->
      categorize_procedure_v2 lower proc_nome = "Outros procedimentos").
Proof.
  intros s has specific. subst has specific. cbv beta.
  assert (Hce : contains "corpo estranho" s = true -> any_in other_kws s = true).
  { intros H. apply any_in_occurs. exists "corpo estranho".
    split; [unfold other_kws; simpl; tauto | now apply contains_occurs]. }
  rewrite <- !any_in_occurs, <- !contains_occurs.
  unfold categorize_procedure_v2. fold s.
  destruct (any_in major_kws s), (any_in specific_kws s),
    (contains "corpo estranho" s), (any_in minor_kws s), (any_in other_kws s),
    (any_in conservative_kws s);
    cbn [andb negb];
    try (specialize (Hce eq_refl); discriminate Hce);
    intuition (try discriminate; try congruence).
Qed.

End WithLower.

Lemma category_by_first_group_witness :
  categorize_procedure_v2 ascii_lower
    (Scalar "ARTROTOMIA P/ RETIRADA DE CORPO ESTRANHO") = "Outros procedimentos".
Proof.
  apply (category_by_first_group ascii_lower
           (Scalar "ARTROTOMIA P/ RETIRADA DE CORPO ESTRANHO")).
  - apply contains_occurs. reflexivity.
  - intros H. apply any_in_occurs in H. discriminate H.
  - intros H. apply any_in_occurs in H. discriminate H.
Defined.

End CategoryTable.

(** * Properties of the rows of the forest plot *)

Module ForestFacts.
Import Forest.

Lemma lookup_plotted (name : string) :
  is_plotted name = true ->
  exists label, Header.lookup_name rename_map_plot name = Some label
                /\ In (name, label) rename_map_plot.
Proof.
  unfold is_plotted, rename_map_plot. cbn [existsb Header.lookup_name fst].
  repeat match goal with
         | |- context [String.eqb ?k name] =>
             destruct (String.eqb_spec k name);
             [intros _; subst name; eexists; split; [reflexivity | cbn; tauto] |]
         end.
  discriminate.
Qed.

(** X18. The forest plot shows a coefficient exactly when its name is
    one of the eight keys of [rename_map_plot], under the label the map
    gives it, in the order of the table; so the intercept and the
    interactions with the length of stay are never shown, and dropping
    'Intercepto' beforehand makes no difference. *)
Theorem forest_rows_selected {A : Type} (odds_ratios_df : list (string * A)) :
  plot_data_filtered odds_ratios_df
  = map display (List.filter (fun r => is_plotted (fst r)) odds_ratios_df)
  /\ (forall label x, In (label, x) (plot_data_filtered odds_ratios_df) <->
        exists name, In (name, label) rename_map_plot /\ In (name, x) odds_ratios_df)
  /\ (length (plot_data_filtered odds_ratios_df) <= length odds_ratios_df)%nat.
Proof.
  assert (H1 : plot_data_filtered odds_ratios_df
               = map display (List.filter (fun r => is_plotted (fst r)) odds_ratios_df)).
  { unfold plot_data_filtered, drop. f_equal.
    induction odds_ratios_df as [|[name x] l IH]; [reflexivity |].
    cbn [List.filter fst].
    destruct (String.eqb_spec "Intercepto" name) as [<- | Hne]; cbn [negb].
    - rewrite IH. reflexivity.
    - cbn [List.filter fst]. now rewrite IH. }
  split; [exact H1 |]. split.
  - intros label x. rewrite H1, in_map_iff. split.
    + intros ([name y] & Hd & Hin). apply filter_In in Hin as [Hin Hp].
      cbn [fst] in Hp. destruct (lookup_plotted name Hp) as (lab & Hl & Hm).
      unfold display in Hd. cbn [fst snd] in Hd. rewrite Hl in Hd.
      injection Hd as <- <-. eauto.
    + intros (name & Hm & Hin). exists (name, x). split.
      * unfold display. cbn [fst snd]. f_equal.
        unfold rename_map_plot in Hm. cbn in Hm.
        repeat (destruct Hm as [Hm | Hm]; [injection Hm as <- <-; reflexivity |]).
        destruct Hm.
      * apply filter_In. split; [exact Hin |]. cbn [fst].
        unfold rename_map_plot in Hm. cbn in Hm.
        repeat (destruct Hm as [Hm | Hm]; [injection Hm as <- <-; reflexivity |]).
        destruct Hm.
  - rewrite H1, length_map. apply filter_length_le.
Qed.

Example forest_rows_sample :
  plot_data_filtered
    [("Intercept", 1%Z); ("IDADE_padronizada", 2%Z); ("DIAS_PERM_log", 3%Z);
     ("DIAS_PERM_log:C(PROC_CATEGORIA, Treatment('Conservador'))[T.Cirurgia Grande]", 4%Z)]
  = [("Idade (Z-score)", 2%Z); ("Tempo Internação (ln)", 3%Z)].
Proof. reflexivity. Qed.

End ForestFacts.
